(** * SpaceX launch dashboard: the two callbacks of [spacex-dash-app.py]

    A shallow embedding of [get_pie_chart] and [get_scatter_chart] and of the
    pandas / plotly operations they call, followed by the properties of the
    dashboard's specification.

    Modelling conventions.
    - A data frame is the list of its rows, in index order.  The global
      [spacex_df] is the state of a small state-and-exception monad: the
      callbacks read it and hand it back.
    - Column ['Payload Mass (kg)'] holds rationals ([Q]) and column ['class']
      integers ([Z]).  A mean and a rate are binary64 numbers: each is kept
      as the rational it denotes, and every division and multiplication
      rounds its exact result to the nearest binary64, ties to even (module
      [B64]), as IEEE 754 prescribes.
    - Strings are byte strings; [String.compare] is the order Python uses on
      [str] (code points), which UTF-8 preserves. *)

From Stdlib Require Import List String Ascii ZArith QArith Qround Qabs.
From Stdlib Require Import Bool Lia Sorted Permutation DecimalString.
From Stdlib Require Import OrderedTypeEx Lqa Qpower DecimalN DecimalPos.
From Corelib Require Import SpecFloat.
Import ListNotations.

Open Scope string_scope.
Open Scope Z_scope.

(** ** Rows of [spacex_launch_dash.csv] *)

Record LaunchRecord : Type := mkRecord {
  launch_site : string;               (* 'Launch Site' *)
  payload_mass : Q;                   (* 'Payload Mass (kg)' *)
  booster_version_category : string;  (* 'Booster Version Category' *)
  class : Z                           (* 'class' *)
}.

Definition DataFrame : Type := list LaunchRecord.

(** ** The interpreter state: the module-level [spacex_df], and exceptions *)

Inductive exn : Type :=
| ValueError.   (* raised by [low, high = payload_range] on a wrong length *)

Inductive result (A : Type) : Type :=
| Ok (a : A)
| Raise (e : exn).
Arguments Ok {A} a.
Arguments Raise {A} e.

Module App.

Definition t (A : Type) : Type := DataFrame -> result A * DataFrame.

Definition ret {A} (a : A) : t A := fun df => (Ok a, df).

Definition raise {A} (e : exn) : t A := fun df => (Raise e, df).

Definition bind {A B} (m : t A) (k : A -> t B) : t B :=
  fun df =>
    match m df with
    | (Ok a, df') => k a df'
    | (Raise e, df') => (Raise e, df')
    end.

(** Reading the global name [spacex_df]. *)
Definition global_df : t DataFrame := fun df => (Ok df, df).

Definition eval {A} (m : t A) (df : DataFrame) : result A := fst (m df).
Definition exec {A} (m : t A) (df : DataFrame) : DataFrame := snd (m df).

End App.

Notation "x <- m ;; k" := (App.bind m (fun x => k))
  (at level 61, m at next level, right associativity).

(** ** Python's [f"{x:.2f}"]

    The argument is the exact value of the float; Python prints the decimal
    with two fractional digits nearest to that value, ties to even. *)

Module Fmt.

(** Nearest integer, ties to even. *)
Definition round_half_even (q : Q) : Z :=
  let f := Qfloor q in
  match Qcompare (q - inject_Z f) (1 # 2) with
  | Lt => f
  | Gt => f + 1
  | Eq => if Z.even f then f else f + 1
  end.

Definition digits (n : Z) : string :=
  NilEmpty.string_of_uint (N.to_uint (Z.to_N n)).

Definition two_digits (n : Z) : string :=
  if n <? 10 then "0" ++ digits n else digits n.

(** [format(q, ".2f")]: sign, integer part, two fractional digits. *)
Definition fixed2 (q : Q) : string :=
  let n := round_half_even (Qabs q * 100) in
  (if Qle_bool 0 q then "" else "-")
    ++ digits (n / 100) ++ "." ++ two_digits (n mod 100).

End Fmt.

(** ** binary64 arithmetic

    A finite binary64 number is kept as the rational it denotes.  An
    operation returns its exact result rounded to 53 significant bits, to
    nearest and ties to even.  The exponent is not bounded: quotients and
    products of an [int64] column and its row count stay far inside the
    normal range, so neither overflow nor subnormals arise. *)

Module B64.

Definition pow2 (e : Z) : Q := Qpower 2 e.

(** [floor (log2 q)] for [q > 0]. *)
Definition ilog2 (q : Q) : Z :=
  let k := Z.log2 (Qnum q) - Z.log2 (Zpos (Qden q)) in
  if Qle_bool (pow2 k) q then k else k - 1.

Definition round (q : Q) : Q :=
  if Qeq_bool q 0 then 0%Q
  else
    let e := ilog2 (Qabs q) - 52 in
    let m := Fmt.round_half_even (Qabs q / pow2 e) in
    Qred ((if Qle_bool 0 q then 1 else -1) * inject_Z m * pow2 e).

Definition div (x y : Q) : Q := round (x / y).

Definition mul (x y : Q) : Q := round (x * y).

End B64.

(** ** pandas *)

Module Pandas.

(** [df[(df[col] >= low) & (df[col] <= high)]] and [df[df[col] == v]]:
    boolean-mask indexing builds a new frame with the selected rows. *)
Definition mask (p : LaunchRecord -> bool) (df : DataFrame) : DataFrame :=
  filter p df.

Definition ge (low : Q) (r : LaunchRecord) : bool :=
  Qle_bool low (payload_mass r).
Definition le (high : Q) (r : LaunchRecord) : bool :=
  Qle_bool (payload_mass r) high.
Definition site_eq (s : string) (r : LaunchRecord) : bool :=
  String.eqb (launch_site r) s.

(** [Series.max()]: no value ([NaN]) on an empty column. *)
Fixpoint column_max (l : list Q) : option Q :=
  match l with
  | [] => None
  | x :: l' =>
      match column_max l' with
      | None => Some x
      | Some m => Some (if Qle_bool m x then x else m)
      end
  end.

Fixpoint column_min (l : list Q) : option Q :=
  match l with
  | [] => None
  | x :: l' =>
      match column_min l' with
      | None => Some x
      | Some m => Some (if Qle_bool x m then x else m)
      end
  end.

(** [Series.sum()] and [Series.mean()] of column ['class'].  The mean is
    the float64 sum divided by the count; the sum of an integer column and
    the count are exact in binary64 below 2^53. *)
Definition class_sum (df : DataFrame) : Z :=
  fold_right Z.add 0 (map class df).

Definition class_mean (df : DataFrame) : Q :=
  B64.div (inject_Z (class_sum df)) (inject_Z (Z.of_nat (List.length df))).

(** [df.groupby(col)]: one group per distinct key, keys in ascending order
    (the default [sort=True]), each group holding its rows in frame order. *)
Fixpoint insert_key (k : string) (ks : list string) : list string :=
  match ks with
  | [] => [k]
  | k' :: ks' =>
      match String.compare k k' with
      | Lt => k :: ks
      | Eq => ks
      | Gt => k' :: insert_key k ks'
      end
  end.

Definition group_keys (col : LaunchRecord -> string) (df : DataFrame)
  : list string :=
  fold_right insert_key [] (map col df).

Definition groupby (col : LaunchRecord -> string) (df : DataFrame)
  : list (string * DataFrame) :=
  map (fun k => (k, filter (fun r => String.eqb (col r) k) df))
      (group_keys col df).

(** [.groupby(col)['class'].sum().reset_index()]: a two-column frame. *)
Definition groupby_class_sum (col : LaunchRecord -> string) (df : DataFrame)
  : list (string * Z) :=
  map (fun g => (fst g, class_sum (snd g))) (groupby col df).

(** [.groupby(col)['class'].mean() * 100]: a series indexed by the keys. *)
Definition groupby_class_mean_pct (col : LaunchRecord -> string)
  (df : DataFrame) : list (string * Q) :=
  map (fun g => (fst g, B64.mul (class_mean (snd g)) 100)) (groupby col df).

(** [Series.sort_values(ascending=False)]: ties keep the order of the
    index, as a stable sort leaves them (the default sort kind does not
    promise an order among ties; nothing below depends on it). *)
Fixpoint insert_desc (x : string * Q) (l : list (string * Q))
  : list (string * Q) :=
  match l with
  | [] => [x]
  | y :: l' =>
      if Qle_bool (snd y) (snd x) then x :: l else y :: insert_desc x l'
  end.

Definition sort_values_desc (s : list (string * Q)) : list (string * Q) :=
  fold_right insert_desc [] s.

(** [Series.unique()]: the distinct values, in order of first appearance
    ([seen] plays the hash table). *)
Fixpoint unique_from (seen l : list string) : list string :=
  match l with
  | [] => []
  | x :: l' =>
      if existsb (String.eqb x) seen then unique_from seen l'
      else x :: unique_from (x :: seen) l'
  end.

Definition unique (l : list string) : list string := unique_from [] l.

End Pandas.

(** ** plotly express and dash html *)

Inductive label : Type :=
| LStr (s : string)
| LInt (z : Z).

Definition label_eqb (a b : label) : bool :=
  match a, b with
  | LStr s, LStr s' => String.eqb s s'
  | LInt z, LInt z' => Z.eqb z z'
  | _, _ => false
  end.

(** [px.pie(frame, names=..., values=..., title=...)]: a pie trace carrying
    the [names] column as labels and, when given, the [values] column. *)
Record PieFigure : Type := px_pie {
  pie_labels : list label;
  pie_values : option (list Z);
  pie_title : string
}.

(** [px.scatter(frame, x='Payload Mass (kg)', y='class',
    color='Booster Version Category', title=...)]: one point per row. *)
Record ScatterFigure : Type := px_scatter {
  scatter_frame : DataFrame;
  scatter_title : string
}.

Inductive html : Type :=
| H5 (children : string)
| P (children : string).

Module Plotly.

(** The sectors a pie trace draws: plotly merges entries with the same
    label, adding their values, or counting them when no values are given.
    Sectors are listed by first occurrence of their label. *)
Fixpoint add_sector (l : label) (v : Z) (acc : list (label * Z))
  : list (label * Z) :=
  match acc with
  | [] => [(l, v)]
  | (l', v') :: acc' =>
      if label_eqb l l' then (l', v' + v) :: acc'
      else (l', v') :: add_sector l v acc'
  end.

Definition weighted (fig : PieFigure) : list (label * Z) :=
  match pie_values fig with
  | Some vs => combine (pie_labels fig) vs
  | None => map (fun l => (l, 1)) (pie_labels fig)
  end.

Definition step (acc : list (label * Z)) (lv : label * Z)
  : list (label * Z) :=
  add_sector (fst lv) (snd lv) acc.

Definition sectors (fig : PieFigure) : list (label * Z) :=
  fold_left step (weighted fig) [].

End Plotly.

(** ** The callbacks *)

(** [max_payload] and [min_payload], computed once at import time. *)
Definition max_payload (spacex_df : DataFrame) : option Q :=
  Pandas.column_max (map payload_mass spacex_df).
Definition min_payload (spacex_df : DataFrame) : option Q :=
  Pandas.column_min (map payload_mass spacex_df).

Definition get_pie_chart (entered_site : string) : App.t PieFigure :=
  spacex_df <- App.global_df ;;
  if String.eqb entered_site "ALL" then
    let fig_df := Pandas.groupby_class_sum launch_site spacex_df in
    let fig := px_pie (map (fun row => LStr (fst row)) fig_df)
                      (Some (map snd fig_df))
                      "Total Successful Launches by Site" in
    App.ret fig
  else
    let filtered_df := Pandas.mask (Pandas.site_eq entered_site) spacex_df in
    let fig := px_pie (map (fun r => LInt (class r)) filtered_df)
                      None
                      ("Launch Outcomes (Success/Failure) for " ++ entered_site) in
    App.ret fig.

(** [low, high = payload_range]. *)
Definition unpack2 (payload_range : list Q) : App.t (Q * Q) :=
  match payload_range with
  | [low; high] => App.ret (low, high)
  | _ => App.raise ValueError
  end.

(** The items the [for] loop of step 5 walks through. *)
Definition booster_rate_items (df_to_plot : DataFrame) : list (string * Q) :=
  let booster_rates :=
    Pandas.groupby_class_mean_pct booster_version_category df_to_plot in
  Pandas.sort_values_desc booster_rates.

Definition get_scatter_chart (entered_site : string) (payload_range : list Q)
  : App.t (ScatterFigure * list html) :=
  lh <- unpack2 payload_range ;;
  let low := fst lh in
  let high := snd lh in
  spacex_df <- App.global_df ;;
  let payload_filtered_df :=
    Pandas.mask (fun r => Pandas.ge low r && Pandas.le high r) spacex_df in
  let '(df_to_plot, base_title) :=
    if String.eqb entered_site "ALL" then
      (payload_filtered_df, "Payload vs. Success Correlation (All Sites)")
    else
      (Pandas.mask (Pandas.site_eq entered_site) payload_filtered_df,
       "Payload vs. Success Correlation for " ++ entered_site) in
  let title_suffix :=
    if (0 <? Z.of_nat (List.length df_to_plot)) then
      let success_rate := B64.mul (Pandas.class_mean df_to_plot) 100 in
      " - Overall Success: " ++ Fmt.fixed2 success_rate ++ "%"
    else
      " - (No Data for this selection)" in
  let final_title := base_title ++ title_suffix in
  let fig := px_scatter df_to_plot final_title in
  let booster_stats_children :=
    if (0 <? Z.of_nat (List.length df_to_plot)) then
      H5 "Booster Success Rates (Current Selection):"
      :: map (fun item => P (fst item ++ ": " ++ Fmt.fixed2 (snd item) ++ "%"))
             (booster_rate_items df_to_plot)
    else [] in
  App.ret (fig, booster_stats_children).

(** ** The controls of the layout *)

(** An entry of the dropdown's [options]. *)
Record DropdownOption : Type := mkOption {
  opt_label : string;   (* 'label' *)
  opt_value : string    (* 'value' *)
}.

(** [launch_sites] and [site_options], computed once at import time. *)
Definition launch_sites (spacex_df : DataFrame) : list string :=
  Pandas.unique (map launch_site spacex_df).

Definition site_options (spacex_df : DataFrame) : list DropdownOption :=
  ([mkOption "All Sites" "ALL"]
   ++ map (fun site => mkOption site site) (launch_sites spacex_df))%list.

(** ** The running example of the specification *)

Definition example_df : DataFrame :=
  [ mkRecord "SiteA" (500 # 1) "BoosterX" 1;
    mkRecord "SiteA" (1500 # 1) "BoosterY" 0;
    mkRecord "SiteB" (2000 # 1) "BoosterX" 1 ].

(** A frame of 160 launches of one booster category, 23 of them successful:
    the exact rate 14.375 sits on a printing tie, the binary64 rate just
    below it. *)
Definition tie_df : DataFrame :=
  (repeat (mkRecord "S" (1 # 1) "B" 1) 23
   ++ repeat (mkRecord "S" (1 # 1) "B" 0) 137)%list.

(** ** The specification's vocabulary *)

(** [payloadMassKg] lies in the closed interval [[low, high]]. *)
Definition in_range (low high : Q) (r : LaunchRecord) : Prop :=
  (low <= payload_mass r /\ payload_mass r <= high)%Q.

(** The site filter [s] lets row [r] through. *)
Definition site_selected (s : string) (r : LaunchRecord) : Prop :=
  s = "ALL" \/ launch_site r = s.

Definition in_rangeb (low high : Q) (r : LaunchRecord) : bool :=
  Qle_bool low (payload_mass r) && Qle_bool (payload_mass r) high.

Definition site_selectedb (s : string) (r : LaunchRecord) : bool :=
  String.eqb s "ALL" || String.eqb (launch_site r) s.

(** The rows the specification's steps 1 and 2 keep, in dataset order. *)
Definition selection (s : string) (low high : Q) (df : DataFrame) : DataFrame :=
  filter (fun r => in_rangeb low high r && site_selectedb s r) df.

(** "base title (site-qualified or not)". *)
Definition base_title (s : string) : string :=
  if String.eqb s "ALL" then "Payload vs. Success Correlation (All Sites)"
  else "Payload vs. Success Correlation for " ++ s.

Definition no_data_suffix : string := " - (No Data for this selection)".

(** The rows of a frame with a given site, booster category or outcome. *)
Definition rows_of_site (s : string) (df : DataFrame) : DataFrame :=
  filter (fun r => String.eqb (launch_site r) s) df.

Definition rows_of_booster (c : string) (df : DataFrame) : DataFrame :=
  filter (fun r => String.eqb (booster_version_category r) c) df.

Definition rows_of_class (c : Z) (df : DataFrame) : DataFrame :=
  filter (fun r => Z.eqb (class r) c) df.

(** Non-increasing by rate. *)
Definition rate_ge (a b : string * Q) : Prop := (snd b <= snd a)%Q.

Definition render_item (item : string * Q) : html :=
  P (fst item ++ ": " ++ Fmt.fixed2 (snd item) ++ "%").

Definition stats_header : html :=
  H5 "Booster Success Rates (Current Selection):".

(** The title and the children [get_scatter_chart] builds (steps 3 to 5)
    from the frame it plots. *)
Definition title_of (s : string) (rows : DataFrame) : string :=
  base_title s ++
    (if 0 <? Z.of_nat (List.length rows)
     then " - Overall Success: "
            ++ Fmt.fixed2 (B64.mul (Pandas.class_mean rows) 100) ++ "%"
     else no_data_suffix).

Definition children_of (rows : DataFrame) : list html :=
  if 0 <? Z.of_nat (List.length rows)
  then stats_header :: map render_item (booster_rate_items rows)
  else [].

(** Sum of the values of a list of sectors. *)
Definition total (ws : list (label * Z)) : Z :=
  fold_right Z.add 0 (map snd ws).

(** The summed value of the entries labelled [l]. *)
Definition weight_of (l : label) (ws : list (label * Z)) : Z :=
  total (filter (fun lv => label_eqb l (fst lv)) ws).

(** The frame [get_scatter_chart] plots; empty when the callback raises. *)
Definition plotted (s : string) (low high : Q) (df : DataFrame) : DataFrame :=
  match App.eval (get_scatter_chart s [low; high]) df with
  | Ok (fig, _) => scatter_frame fig
  | Raise _ => []
  end.

(** Sum of a column of integers. *)
Definition zsum (l : list Z) : Z := fold_right Z.add 0 l.

(** The mean of [class] over a frame as a real number, before any rounding. *)
Definition exact_mean (rows : DataFrame) : Q :=
  (inject_Z (zsum (map class rows)) / inject_Z (Z.of_nat (List.length rows)))%Q.

(** [y] is [x] rounded to binary64, to nearest: with [2^e] the unit in the
    last place of [x] (53 significant bits), [y] is a multiple of [2^e] at
    most half a unit away from [x]; and 0 rounds to 0. *)
Definition binary64_rounding (x y : Q) : Prop :=
  ((x == 0 /\ y == 0)
   \/ exists (e m : Z),
        2 ^ (e + 52) <= Qabs x /\ Qabs x < 2 ^ (e + 53)
        /\ y == inject_Z m * 2 ^ e
        /\ Qabs (y - x) <= 2 ^ e * (1 # 2))%Q.

(** Reading a numeral [[-]d+.dd] back: the number of hundredths it denotes,
    and nothing for any other text. *)
Fixpoint split_dot (s : string) : option (string * string) :=
  match s with
  | EmptyString => None
  | String c s' =>
      if Ascii.eqb c "." then Some (EmptyString, s')
      else match split_dot s' with
           | Some (a, b) => Some (String c a, b)
           | None => None
           end
  end.

Definition read_digits (s : string) : option Z :=
  match s with
  | EmptyString => None
  | _ => match NilEmpty.uint_of_string s with
         | Some u => Some (Z.of_N (N.of_uint u))
         | None => None
         end
  end.

Definition read_unsigned2 (s : string) : option Z :=
  match split_dot s with
  | Some (i, f) =>
      if Nat.eqb (String.length f) 2 then
        match read_digits i, read_digits f with
        | Some a, Some b => Some (100 * a + b)
        | _, _ => None
        end
      else None
  | None => None
  end.

Definition read_fixed2 (s : string) : option Z :=
  match s with
  | String "-" s' => option_map Z.opp (read_unsigned2 s')
  | _ => read_unsigned2 s
  end.

Definition is_digit (c : ascii) : bool :=
  (48 <=? Z.of_nat (nat_of_ascii c)) && (Z.of_nat (nat_of_ascii c) <=? 57).

Fixpoint all_digits (s : string) : bool :=
  match s with
  | EmptyString => true
  | String c s' => is_digit c && all_digits s'
  end.

(** The rate of [s] successes out of [n] launches as the standard library's
    IEEE 754 specification computes it, for comparison with [B64]. *)
Definition SF2Q (x : spec_float) : Q :=
  match x with
  | S754_finite sign m e =>
      Qred ((if sign then -1 else 1) * inject_Z (Zpos m) * B64.pow2 e)
  | _ => 0%Q
  end.

Definition Z2SF (z : Z) : spec_float := binary_normalize 53 1024 z 0 false.

Definition ieee_rate (s n : Z) : spec_float :=
  SFmul 53 1024 (SFdiv 53 1024 (Z2SF s) (Z2SF n)) (Z2SF 100).

Definition rate_grid (bound : nat) : list (Z * Z) :=
  flat_map (fun n => map (fun s => (Z.of_nat s, Z.of_nat (S n)))
                         (seq 0 (S (S n))))
           (seq 0 bound).

(** Every outcome of the frame is 0 (failure) or 1 (success). *)
Definition binary_outcomes (df : DataFrame) : Prop :=
  forall r, In r df -> class r = 0 \/ class r = 1.

(** * Properties *)

(** ** Running the callbacks *)

Ltac run_callback :=
  unfold get_scatter_chart, get_pie_chart, unpack2, App.bind, App.ret,
    App.raise, App.global_df, App.eval, App.exec, Pandas.mask; cbn [fst snd].

Lemma in_rangeb_spec (low high : Q) (r : LaunchRecord) :
  in_rangeb low high r = true <-> in_range low high r.
Proof.
  unfold in_rangeb, in_range.
  rewrite andb_true_iff, !Qle_bool_iff. tauto.
Qed.

Lemma site_selectedb_spec (s : string) (r : LaunchRecord) :
  site_selectedb s r = true <-> site_selected s r.
Proof.
  unfold site_selectedb, site_selected.
  rewrite orb_true_iff, !String.eqb_eq. tauto.
Qed.

Lemma filter_twice {A} (p q : A -> bool) (l : list A) :
  filter q (filter p l) = filter (fun x => p x && q x) l.
Proof.
  induction l as [|x l IH]; cbn; [reflexivity|].
  destruct (p x); cbn; [destruct (q x)|]; now rewrite IH.
Qed.

Lemma filter_none {A} (p : A -> bool) (l : list A) :
  (forall x, In x l -> p x = false) -> filter p l = [].
Proof.
  induction l as [|x l IH]; cbn; intro H; [reflexivity|].
  rewrite (H x (or_introl eq_refl)). apply IH. intros y Hy. apply H. now right.
Qed.

(** What [get_scatter_chart] plots is the specification's selection. *)
Lemma df_to_plot_selection (s : string) (low high : Q) (df : DataFrame) :
  (if String.eqb s "ALL"
   then filter (fun r => Pandas.ge low r && Pandas.le high r) df
   else filter (Pandas.site_eq s)
          (filter (fun r => Pandas.ge low r && Pandas.le high r) df))
  = selection s low high df.
Proof.
  unfold selection, site_selectedb, in_rangeb, Pandas.ge, Pandas.le,
    Pandas.site_eq.
  destruct (String.eqb s "ALL"); [|rewrite filter_twice];
    apply filter_ext; intro r; cbn; now rewrite ?andb_true_r.
Qed.

(** The callback returns normally on every two-element range, with the
    selection as its frame, and hands the dataset back. *)
Lemma get_scatter_chart_run (s : string) (low high : Q) (df : DataFrame) :
  get_scatter_chart s [low; high] df
  = (Ok (px_scatter (selection s low high df)
                    (title_of s (selection s low high df)),
         children_of (selection s low high df)), df).
Proof.
  run_callback.
  rewrite <- df_to_plot_selection.
  unfold title_of, children_of, base_title, no_data_suffix.
  destruct (String.eqb s "ALL"); reflexivity.
Qed.

Lemma length_pos_iff {A} (l : list A) :
  (0 <? Z.of_nat (List.length l)) = true <-> l <> [].
Proof.
  destruct l; cbn; split; intro H; try easy.
Qed.

Lemma length_pos_false {A} (l : list A) :
  (0 <? Z.of_nat (List.length l)) = false <-> l = [].
Proof.
  destruct l; cbn; split; intro H; try easy.
Qed.

(** ** Selection (steps 1 and 2) *)

Lemma selection_In (s : string) (low high : Q) (df : DataFrame) (r : LaunchRecord) :
  In r (selection s low high df)
  <-> In r df /\ in_range low high r /\ site_selected s r.
Proof.
  unfold selection.
  rewrite filter_In, andb_true_iff, in_rangeb_spec, site_selectedb_spec.
  tauto.
Qed.

(** C1. For every site filter [s] and payload range [(low, high)] (in
    particular every one with [low <= high]) [get_scatter_chart] returns
    normally and the frame it plots holds exactly the dataset's records whose
    payload mass lies in the closed interval [[low, high]] and, when [s] is
    not ["ALL"], whose site equals [s], in dataset order and with their
    multiplicity; with ["ALL"] only the payload filter applies. *)
Theorem scatter_selects_range_and_site :
  forall (df : DataFrame) (s : string) (low high : Q),
  exists fig kids,
    get_scatter_chart s [low; high] df = (Ok (fig, kids), df)
    /\ scatter_frame fig = selection s low high df
    /\ (forall r, In r (scatter_frame fig)
                  <-> In r df /\ in_range low high r
                      /\ (s <> "ALL" -> launch_site r = s))
    /\ (s = "ALL" -> scatter_frame fig = filter (in_rangeb low high) df)
    /\ (s <> "ALL" ->
        scatter_frame fig
        = filter (fun r => in_rangeb low high r
                           && String.eqb (launch_site r) s) df).
Proof.
  intros df s low high.
  eexists _, _. split; [apply get_scatter_chart_run|]. cbn [scatter_frame].
  split; [reflexivity|]. split; [|split].
  - intro r. rewrite selection_In. unfold site_selected.
    destruct (string_dec s "ALL"); tauto.
  - intros ->. unfold selection.
    apply filter_ext. intro r. cbn. apply andb_true_r.
  - intros Hs. unfold selection, site_selectedb.
    apply filter_ext. intro r.
    apply String.eqb_neq in Hs. now rewrite Hs.
Qed.

(** ** Two-decimal formatting *)

Lemma round_half_even_nearest (q : Q) :
  (Qabs (inject_Z (Fmt.round_half_even q) - q) <= 1 # 2)%Q.
Proof.
  unfold Fmt.round_half_even.
  pose proof (Qfloor_le q) as Hlo.
  pose proof (Qlt_floor q) as Hhi.
  rewrite inject_Z_plus in Hhi. change (inject_Z 1) with 1%Q in Hhi.
  apply Qabs_Qle_condition.
  destruct (Qcompare (q - inject_Z (Qfloor q)) (1 # 2)) eqn:E.
  - apply Qeq_alt in E.
    destruct (Z.even (Qfloor q)); rewrite ?inject_Z_plus;
      change (inject_Z 1) with 1%Q; split; lra.
  - apply Qlt_alt in E. split; lra.
  - apply Qgt_alt in E. rewrite inject_Z_plus.
    change (inject_Z 1) with 1%Q. split; lra.
Qed.

Lemma two_digits_length (n : Z) :
  0 <= n < 100 -> String.length (Fmt.two_digits n) = 2%nat.
Proof.
  intro H.
  assert (A : forallb (fun k => Nat.eqb (String.length (Fmt.two_digits (Z.of_nat k))) 2)
                (seq 0 100) = true) by (vm_compute; reflexivity).
  rewrite forallb_forall in A.
  specialize (A (Z.to_nat n)).
  rewrite Z2Nat.id in A by lia.
  apply Nat.eqb_eq, A, in_seq. lia.
Qed.

Lemma fixed2_two_decimals (q : Q) :
  let n := Fmt.round_half_even (Qabs q * 100) in
  Fmt.fixed2 q
  = (if Qle_bool 0 q then "" else "-")
      ++ Fmt.digits (n / 100) ++ "." ++ Fmt.two_digits (n mod 100)
  /\ String.length (Fmt.two_digits (n mod 100)) = 2%nat
  /\ (Qabs (inject_Z n / 100 - Qabs q) <= 1 # 200)%Q.
Proof.
  cbn zeta. split; [reflexivity|]. split.
  - apply two_digits_length. apply Z.mod_pos_bound. lia.
  - pose proof (round_half_even_nearest (Qabs q * 100)) as H.
    apply Qabs_Qle_condition in H. apply Qabs_Qle_condition.
    set (x := inject_Z (Fmt.round_half_even (Qabs q * 100))) in *.
    change (x / 100)%Q with (x * (1 # 100))%Q.
    split; lra.
Qed.

(** ** Reading a printed rate back *)

Lemma string_of_uint_digits (d : Decimal.uint) :
  all_digits (NilEmpty.string_of_uint d) = true.
Proof. induction d; cbn [NilEmpty.string_of_uint all_digits]; auto. Qed.

Lemma split_dot_digits (s t : string) :
  all_digits s = true -> split_dot (s ++ String "." t) = Some (s, t).
Proof.
  induction s as [|c s IH]; cbn; intro H; [reflexivity|].
  apply andb_true_iff in H as [Hc Hs].
  rewrite (IH Hs).
  destruct (Ascii.eqb c ".") eqn:E; [|reflexivity].
  apply Ascii.eqb_eq in E. subst c. discriminate Hc.
Qed.

Lemma digits_nonempty (n : Z) : Fmt.digits n <> "".
Proof.
  unfold Fmt.digits. destruct (Z.to_N n) as [|p]; [discriminate|].
  cbn [N.to_uint]. pose proof (Unsigned.to_uint_nonnil p) as H.
  destruct (Pos.to_uint p); try discriminate. now contradiction H.
Qed.

Lemma read_digits_digits (n : Z) :
  0 <= n -> read_digits (Fmt.digits n) = Some n.
Proof.
  intro Hn. unfold read_digits.
  pose proof (digits_nonempty n) as Hne.
  destruct (Fmt.digits n) eqn:E; [now contradiction Hne|].
  rewrite <- E. unfold Fmt.digits.
  rewrite NilEmpty.usu, DecimalN.Unsigned.of_to, Z2N.id by exact Hn.
  reflexivity.
Qed.

Lemma two_digits_read (n : Z) :
  0 <= n < 100 ->
  String.length (Fmt.two_digits n) = 2%nat
  /\ read_digits (Fmt.two_digits n) = Some n
  /\ all_digits (Fmt.two_digits n) = true.
Proof.
  intro H.
  assert (A : forallb (fun k =>
                Nat.eqb (String.length (Fmt.two_digits (Z.of_nat k))) 2
                && match read_digits (Fmt.two_digits (Z.of_nat k)) with
                   | Some v => Z.eqb v (Z.of_nat k)
                   | None => false
                   end
                && all_digits (Fmt.two_digits (Z.of_nat k)))
                (seq 0 100) = true) by (vm_compute; reflexivity).
  rewrite forallb_forall in A.
  specialize (A (Z.to_nat n)).
  rewrite Z2Nat.id in A by lia.
  assert (Hin : In (Z.to_nat n) (seq 0 100)) by (apply in_seq; lia).
  apply A in Hin. apply andb_true_iff in Hin as [Hin H3].
  apply andb_true_iff in Hin as [H1 H2].
  split; [now apply Nat.eqb_eq|]. split; [|exact H3].
  destruct (read_digits (Fmt.two_digits n)); [|discriminate].
  apply Z.eqb_eq in H2. now subst.
Qed.

Lemma round_half_even_nonneg (q : Q) :
  (0 <= q)%Q -> 0 <= Fmt.round_half_even q.
Proof.
  intro H. assert (Hf : 0 <= Qfloor q).
  { change 0 with (Qfloor 0). now apply Qfloor_resp_le. }
  unfold Fmt.round_half_even.
  destruct (Qcompare _ _); [destruct (Z.even _)| |]; lia.
Qed.

Lemma read_unsigned2_digits (n : Z) :
  0 <= n ->
  read_unsigned2 (Fmt.digits (n / 100) ++ "." ++ Fmt.two_digits (n mod 100))
  = Some n.
Proof.
  intro Hn. unfold read_unsigned2.
  change ("." ++ Fmt.two_digits (n mod 100))
    with (String "." (Fmt.two_digits (n mod 100))).
  rewrite split_dot_digits by apply string_of_uint_digits.
  assert (Hm : 0 <= n mod 100 < 100) by (apply Z.mod_pos_bound; lia).
  destruct (two_digits_read _ Hm) as (H1 & H2 & _).
  rewrite H1, H2, read_digits_digits by (apply Z.div_pos; lia).
  cbn [Nat.eqb]. f_equal. rewrite (Z.div_mod n 100) at 3 by lia. reflexivity.
Qed.

(** Reading back what [fixed2] prints gives the hundredths it rounded to. *)
Lemma read_fixed2_fixed2 (q : Q) :
  read_fixed2 (Fmt.fixed2 q)
  = Some ((if Qle_bool 0 q then 1 else -1)
          * Fmt.round_half_even (Qabs q * 100)).
Proof.
  unfold Fmt.fixed2.
  set (n := Fmt.round_half_even (Qabs q * 100)).
  assert (Hn : 0 <= n).
  { apply round_half_even_nonneg.
    apply Qmult_le_0_compat; [apply Qabs_nonneg | discriminate]. }
  pose proof (read_unsigned2_digits n Hn) as R.
  set (body := Fmt.digits (n / 100) ++ "." ++ Fmt.two_digits (n mod 100)) in *.
  destruct (Qle_bool 0 q).
  - change ("" ++ body) with body.
    assert (Hd : read_fixed2 body = read_unsigned2 body).
    { unfold body. pose proof (digits_nonempty (n / 100)) as Hne.
      pose proof (string_of_uint_digits (N.to_uint (Z.to_N (n / 100)))) as Hall.
      fold (Fmt.digits (n / 100)) in Hall.
      destruct (Fmt.digits (n / 100)) as [|c s]; [now contradiction Hne|].
      cbn [all_digits] in Hall. apply andb_true_iff in Hall as [Hc _].
      cbn [String.append read_fixed2].
      destruct c as [[] [] [] [] [] [] [] []]; try reflexivity; discriminate Hc. }
    rewrite Hd, R. f_equal; lia.
  - change ("-" ++ body) with (String "-" body).
    cbn [read_fixed2]. rewrite R. cbn [option_map]. f_equal; lia.
Qed.

(** What [fixed2] prints denotes a hundredth nearest to its argument. *)
Lemma fixed2_reads_back_nearest (q : Q) :
  exists hundredths,
    read_fixed2 (Fmt.fixed2 q) = Some hundredths
    /\ (Qabs (inject_Z hundredths / 100 - q) <= 1 # 200)%Q.
Proof.
  eexists. split; [apply read_fixed2_fixed2|].
  pose proof (round_half_even_nearest (Qabs q * 100)) as H.
  apply Qabs_Qle_condition in H. destruct H as [H1 H2].
  set (x := inject_Z (Fmt.round_half_even (Qabs q * 100))) in *.
  apply Qabs_Qle_condition.
  destruct (Qle_bool 0 q) eqn:E.
  - apply Qle_bool_iff in E. rewrite (Qabs_pos q E) in H1, H2.
    rewrite Z.mul_1_l. fold x.
    change (x / 100)%Q with (x * (1 # 100))%Q. split; lra.
  - assert (Hq : (q <= 0)%Q).
    { apply Qlt_le_weak, Qnot_le_lt. intro H. apply Qle_bool_iff in H.
      congruence. }
    rewrite (Qabs_neg q Hq) in H1, H2.
    replace (-1 * Fmt.round_half_even (Qabs q * 100))
      with (- Fmt.round_half_even (Qabs q * 100)) by lia.
    rewrite inject_Z_opp. fold x.
    change (- x / 100)%Q with (- x * (1 # 100))%Q. split; lra.
Qed.

(** ** binary64 rounding *)

Lemma round_half_even_Z (z : Z) : Fmt.round_half_even (inject_Z z) = z.
Proof.
  unfold Fmt.round_half_even. rewrite Qfloor_Z.
  assert (E : Qcompare (inject_Z z - inject_Z z) (1 # 2) = Lt).
  { rewrite <- Qlt_alt. set (x := inject_Z z). lra. }
  now rewrite E.
Qed.

Lemma round_half_even_between (q : Q) :
  Qfloor q <= Fmt.round_half_even q <= Qfloor q + 1.
Proof.
  unfold Fmt.round_half_even.
  destruct (Qcompare _ _); [destruct (Z.even _)| |]; lia.
Qed.

Lemma round_half_even_mono (x y : Q) :
  (x <= y)%Q -> Fmt.round_half_even x <= Fmt.round_half_even y.
Proof.
  intro Hxy.
  pose proof (Qfloor_resp_le _ _ Hxy) as Hf.
  destruct (Z.eq_dec (Qfloor x) (Qfloor y)) as [E|E].
  - unfold Fmt.round_half_even. rewrite E.
    destruct (Qcompare (x - inject_Z (Qfloor y)) (1 # 2)) eqn:Ex;
    destruct (Qcompare (y - inject_Z (Qfloor y)) (1 # 2)) eqn:Ey;
      try (destruct (Z.even (Qfloor y))); try lia;
      exfalso;
      first [apply Qeq_alt in Ex | apply Qlt_alt in Ex | apply Qgt_alt in Ex];
      first [apply Qeq_alt in Ey | apply Qlt_alt in Ey | apply Qgt_alt in Ey];
      lra.
  - pose proof (round_half_even_between x). pose proof (round_half_even_between y).
    lia.
Qed.

Lemma pow2_pos (e : Z) : (0 < B64.pow2 e)%Q.
Proof. apply Qpower_0_lt. reflexivity. Qed.

Lemma pow2_add (a b : Z) : (B64.pow2 (a + b) == B64.pow2 a * B64.pow2 b)%Q.
Proof. apply Qpower_plus. discriminate. Qed.

Lemma pow2_le (a b : Z) : a <= b -> (B64.pow2 a <= B64.pow2 b)%Q.
Proof. intro H. apply Qpower_le_compat_l; [exact H | discriminate]. Qed.

Lemma pow2_lt (a b : Z) : a < b -> (B64.pow2 a < B64.pow2 b)%Q.
Proof. intro H. apply Qpower_lt_compat_l; [exact H | reflexivity]. Qed.

Lemma pow2_lt_inv (a b : Z) : (B64.pow2 a < B64.pow2 b)%Q -> a < b.
Proof. intro H. eapply Qpower_lt_compat_l_inv; [exact H | reflexivity]. Qed.

Lemma pow2_inject (n : Z) : 0 <= n -> (B64.pow2 n == inject_Z (2 ^ n))%Q.
Proof. intro H. unfold B64.pow2. now rewrite Zpower_Qpower. Qed.

Lemma log2_bounds (a : Z) :
  0 < a ->
  (B64.pow2 (Z.log2 a) <= inject_Z a /\ inject_Z a < B64.pow2 (Z.log2 a + 1))%Q.
Proof.
  intro Ha. destruct (Z.log2_spec a Ha) as [H1 H2].
  pose proof (Z.log2_nonneg a) as Hn.
  rewrite !pow2_inject by lia. rewrite <- Zle_Qle, <- Zlt_Qlt.
  split; [exact H1 | now rewrite <- Z.add_1_r in H2].
Qed.

Lemma ilog2_spec (q : Q) :
  (0 < q)%Q ->
  (B64.pow2 (B64.ilog2 q) <= q /\ q < B64.pow2 (B64.ilog2 q + 1))%Q.
Proof.
  intro Hq. destruct q as [a b].
  assert (Ha : 0 < a). { unfold Qlt in Hq. cbn in Hq. lia. }
  unfold B64.ilog2. cbn [Qnum Qden].
  set (la := Z.log2 a). set (lb := Z.log2 (Z.pos b)).
  destruct (log2_bounds a Ha) as [A1 A2]. fold la in A1, A2.
  destruct (log2_bounds (Z.pos b) eq_refl) as [B1 B2]. fold lb in B1, B2.
  assert (Eq : ((a # b) * inject_Z (Z.pos b) == inject_Z a)%Q).
  { unfold Qeq, Qmult, inject_Z. cbn. lia. }
  assert (Hb : (0 < inject_Z (Z.pos b))%Q) by reflexivity.
  assert (Up : ((a # b) < B64.pow2 (la - lb + 1))%Q).
  { apply (Qmult_lt_r _ _ (inject_Z (Z.pos b)) Hb). rewrite Eq.
    eapply Qlt_le_trans; [exact A2|].
    replace (la + 1) with ((la - lb + 1) + lb) by lia.
    rewrite pow2_add. apply Qmult_le_l; [apply pow2_pos | exact B1]. }
  assert (Lo : (B64.pow2 (la - lb - 1) <= (a # b))%Q).
  { apply (Qmult_le_r _ _ (inject_Z (Z.pos b)) Hb). rewrite Eq.
    eapply Qle_trans; [|exact A1].
    replace la with ((la - lb - 1) + (lb + 1)) at 2 by lia.
    rewrite pow2_add. apply Qmult_le_l; [apply pow2_pos|].
    now apply Qlt_le_weak. }
  destruct (Qle_bool (B64.pow2 (la - lb)) (a # b)) eqn:T.
  - apply Qle_bool_iff in T. split; [exact T | exact Up].
  - split; [exact Lo|].
    replace (la - lb - 1 + 1) with (la - lb) by lia.
    apply Qnot_le_lt. intro H. apply Qle_bool_iff in H. congruence.
Qed.

Lemma scaled_bounds (q : Q) :
  (0 < q)%Q ->
  (B64.pow2 52 <= q / B64.pow2 (B64.ilog2 q - 52)
   /\ q / B64.pow2 (B64.ilog2 q - 52) < B64.pow2 53)%Q.
Proof.
  intro Hq. destruct (ilog2_spec q Hq) as [H1 H2].
  set (e := B64.ilog2 q - 52) in *.
  pose proof (pow2_pos e) as He.
  split.
  - apply Qle_shift_div_l; [exact He|].
    rewrite <- pow2_add. now replace (52 + e) with (B64.ilog2 q) by (unfold e; lia).
  - apply Qlt_shift_div_r; [exact He|].
    rewrite <- pow2_add.
    now replace (53 + e) with (B64.ilog2 q + 1) by (unfold e; lia).
Qed.

Lemma Qabs_of_pos (q : Q) : (0 < q)%Q -> Qabs q = q.
Proof.
  destruct q as [a b]. unfold Qlt. cbn. intro H.
  rewrite Z.abs_eq by lia. reflexivity.
Qed.

Lemma Qabs_of_neg (q : Q) : (q < 0)%Q -> Qabs q = (- q)%Q.
Proof.
  destruct q as [a b]. unfold Qlt. cbn. intro H.
  rewrite Z.abs_neq by lia. reflexivity.
Qed.

Lemma round_pos (q : Q) :
  (0 < q)%Q ->
  (B64.round q
   == inject_Z (Fmt.round_half_even (q / B64.pow2 (B64.ilog2 q - 52)))
      * B64.pow2 (B64.ilog2 q - 52))%Q.
Proof.
  intro Hq. unfold B64.round.
  assert (E0 : Qeq_bool q 0 = false).
  { apply not_true_is_false. intro E. apply Qeq_bool_iff in E.
    rewrite E in Hq. discriminate Hq. }
  assert (E1 : Qle_bool 0 q = true).
  { apply Qle_bool_iff. now apply Qlt_le_weak. }
  rewrite E0, E1, (Qabs_of_pos q Hq), Qred_correct. ring.
Qed.

Lemma round_neg (q : Q) :
  (q < 0)%Q -> (B64.round q == - B64.round (- q))%Q.
Proof.
  intro Hq.
  assert (Hp : (0 < - q)%Q) by lra.
  rewrite (round_pos _ Hp). unfold B64.round.
  assert (E0 : Qeq_bool q 0 = false).
  { apply not_true_is_false. intro E. apply Qeq_bool_iff in E.
    rewrite E in Hq. discriminate Hq. }
  assert (E1 : Qle_bool 0 q = false).
  { apply not_true_is_false. intro H. apply Qle_bool_iff in H. lra. }
  rewrite E0, E1, (Qabs_of_neg q Hq), Qred_correct. ring.
Qed.

Lemma round_zero (q : Q) : (q == 0)%Q -> B64.round q = 0%Q.
Proof.
  intro E. unfold B64.round.
  now rewrite (proj2 (Qeq_bool_iff q 0) E).
Qed.

Lemma round_pos_ge (q : Q) :
  (0 < q)%Q -> (B64.pow2 (B64.ilog2 q) <= B64.round q)%Q.
Proof.
  intro Hq. rewrite (round_pos q Hq).
  destruct (scaled_bounds q Hq) as [H1 _].
  set (e := B64.ilog2 q - 52) in *.
  replace (B64.ilog2 q) with (52 + e) at 1 by (unfold e; lia).
  rewrite pow2_add.
  apply Qmult_le_compat_r; [|apply Qlt_le_weak, pow2_pos].
  rewrite (pow2_inject 52) in * by lia.
  rewrite <- Zle_Qle.
  rewrite <- (round_half_even_Z (2 ^ 52)).
  now apply round_half_even_mono.
Qed.

Lemma round_pos_le (q : Q) :
  (0 < q)%Q -> (B64.round q <= B64.pow2 (B64.ilog2 q + 1))%Q.
Proof.
  intro Hq. rewrite (round_pos q Hq).
  destruct (scaled_bounds q Hq) as [_ H2].
  set (e := B64.ilog2 q - 52) in *.
  replace (B64.ilog2 q + 1) with (53 + e) by (unfold e; lia).
  rewrite pow2_add.
  apply Qmult_le_compat_r; [|apply Qlt_le_weak, pow2_pos].
  rewrite (pow2_inject 53) in * by lia.
  rewrite <- Zle_Qle.
  rewrite <- (round_half_even_Z (2 ^ 53)).
  apply round_half_even_mono. now apply Qlt_le_weak.
Qed.

Lemma round_nonneg (q : Q) : (0 <= q)%Q -> (0 <= B64.round q)%Q.
Proof.
  intro Hq. destruct (Qlt_le_dec 0 q) as [Hp|Hz].
  - eapply Qle_trans; [|apply (round_pos_ge q Hp)].
    apply Qlt_le_weak, pow2_pos.
  - rewrite round_zero; [apply Qle_refl | lra].
Qed.

Lemma ilog2_mono (x y : Q) :
  (0 < x)%Q -> (x <= y)%Q -> B64.ilog2 x <= B64.ilog2 y.
Proof.
  intros Hx Hxy.
  assert (Hy : (0 < y)%Q) by lra.
  destruct (ilog2_spec x Hx) as [X1 _].
  destruct (ilog2_spec y Hy) as [_ Y2].
  assert (H : B64.ilog2 x < B64.ilog2 y + 1); [|lia].
  apply pow2_lt_inv. lra.
Qed.

Lemma round_mono (x y : Q) :
  (0 <= x)%Q -> (x <= y)%Q -> (B64.round x <= B64.round y)%Q.
Proof.
  intros Hx Hxy.
  destruct (Qlt_le_dec 0 x) as [Hp|Hz].
  - assert (Hy : (0 < y)%Q) by lra.
    pose proof (ilog2_mono x y Hp Hxy) as Hk.
    destruct (Z.eq_dec (B64.ilog2 x) (B64.ilog2 y)) as [E|E].
    + rewrite (round_pos x Hp), (round_pos y Hy), E.
      set (e := B64.ilog2 y - 52).
      pose proof (pow2_pos e) as He.
      apply Qmult_le_compat_r; [|now apply Qlt_le_weak].
      rewrite <- Zle_Qle. apply round_half_even_mono.
      apply Qmult_le_compat_r; [exact Hxy|].
      apply Qlt_le_weak, Qinv_lt_0_compat, He.
    + eapply Qle_trans; [apply (round_pos_le x Hp)|].
      eapply Qle_trans; [|apply (round_pos_ge y Hy)].
      apply pow2_le. lia.
  - rewrite (round_zero x) by lra. apply round_nonneg. lra.
Qed.

Lemma round_error_pos (q : Q) :
  (0 < q)%Q ->
  (Qabs (B64.round q - q) <= q * (1 # 9007199254740992))%Q.
Proof.
  intro Hq. rewrite (round_pos q Hq).
  destruct (ilog2_spec q Hq) as [H1 _].
  set (e := B64.ilog2 q - 52) in *.
  pose proof (pow2_pos e) as He.
  set (t := (q / B64.pow2 e)%Q).
  pose proof (round_half_even_nearest t) as Hn.
  assert (Eq : (q == t * B64.pow2 e)%Q).
  { unfold t. field. intro E. rewrite E in He. discriminate He. }
  assert (Hk : (B64.pow2 e * inject_Z (2 ^ 52) <= q)%Q).
  { rewrite <- (pow2_inject 52), <- pow2_add by lia.
    now replace (e + 52) with (B64.ilog2 q) by (unfold e; lia). }
  change (inject_Z (2 ^ 52)) with (4503599627370496 # 1)%Q in Hk.
  set (m := inject_Z (Fmt.round_half_even t)) in *.
  set (p := B64.pow2 e) in *.
  apply Qabs_Qle_condition in Hn. destruct Hn as [Hn1 Hn2].
  apply Qabs_Qle_condition.
  assert (U : (m * p - t * p <= (1 # 2) * p)%Q).
  { setoid_replace (m * p - t * p)%Q with ((m - t) * p)%Q by ring.
    apply Qmult_le_compat_r; [exact Hn2 | now apply Qlt_le_weak]. }
  assert (L : (- (1 # 2) * p <= m * p - t * p)%Q).
  { setoid_replace (m * p - t * p)%Q with ((m - t) * p)%Q by ring.
    apply Qmult_le_compat_r; [exact Hn1 | now apply Qlt_le_weak]. }
  rewrite Eq at 1 4. rewrite Eq in Hk.
  split; lra.
Qed.

Lemma round_error (q : Q) :
  (Qabs (B64.round q - q) <= Qabs q * (1 # 9007199254740992))%Q.
Proof.
  destruct (Q_dec 0 q) as [[Hp|Hn]|Hz].
  - rewrite (Qabs_pos q) by lra. now apply round_error_pos.
  - rewrite (Qabs_neg q) by lra. rewrite (round_neg q Hn).
    assert (Hp : (0 < - q)%Q) by lra.
    pose proof (round_error_pos _ Hp) as H.
    apply Qabs_Qle_condition in H. apply Qabs_Qle_condition.
    split; lra.
  - rewrite (round_zero q) by (symmetry; exact Hz).
    rewrite <- Hz. cbn. discriminate.
Qed.

Lemma round_is_rounding_pos (q : Q) :
  (0 < q)%Q ->
  exists m : Z,
    (2 ^ (B64.ilog2 q - 52 + 52) <= q /\ q < 2 ^ (B64.ilog2 q - 52 + 53)
     /\ B64.round q == inject_Z m * 2 ^ (B64.ilog2 q - 52)
     /\ Qabs (B64.round q - q) <= 2 ^ (B64.ilog2 q - 52) * (1 # 2))%Q.
Proof.
  intro Hq.
  exists (Fmt.round_half_even (q / B64.pow2 (B64.ilog2 q - 52))).
  destruct (ilog2_spec q Hq) as [H1 H2].
  replace (B64.ilog2 q - 52 + 52) with (B64.ilog2 q) by lia.
  replace (B64.ilog2 q - 52 + 53) with (B64.ilog2 q + 1) by lia.
  split; [exact H1|]. split; [exact H2|].
  split; [exact (round_pos q Hq)|].
  rewrite (round_pos q Hq).
  set (e := B64.ilog2 q - 52) in *.
  pose proof (pow2_pos e) as He.
  set (t := (q / B64.pow2 e)%Q).
  pose proof (round_half_even_nearest t) as Hn.
  assert (Eq : (q == t * B64.pow2 e)%Q).
  { unfold t. field. intro E. rewrite E in He. discriminate He. }
  set (m := inject_Z (Fmt.round_half_even t)) in *.
  fold (B64.pow2 e). set (p := B64.pow2 e) in *.
  apply Qabs_Qle_condition in Hn. destruct Hn as [Hn1 Hn2].
  apply Qabs_Qle_condition.
  assert (U : (m * p - t * p <= (1 # 2) * p)%Q).
  { setoid_replace (m * p - t * p)%Q with ((m - t) * p)%Q by ring.
    apply Qmult_le_compat_r; [exact Hn2 | now apply Qlt_le_weak]. }
  assert (L : (- (1 # 2) * p <= m * p - t * p)%Q).
  { setoid_replace (m * p - t * p)%Q with ((m - t) * p)%Q by ring.
    apply Qmult_le_compat_r; [exact Hn1 | now apply Qlt_le_weak]. }
  rewrite Eq at 1 2.
  split; lra.
Qed.

Lemma round_is_binary64_rounding (q : Q) :
  binary64_rounding q (B64.round q).
Proof.
  destruct (Q_dec 0 q) as [[Hp|Hn]|Hz].
  - right. destruct (round_is_rounding_pos q Hp) as (m & H1 & H2 & H3 & H4).
    exists (B64.ilog2 q - 52), m.
    rewrite (Qabs_pos q) by lra. auto.
  - right. assert (Hp : (0 < - q)%Q) by lra.
    destruct (round_is_rounding_pos _ Hp) as (m & H1 & H2 & H3 & H4).
    exists (B64.ilog2 (- q) - 52), (- m).
    rewrite (Qabs_neg q) by lra.
    split; [exact H1|]. split; [exact H2|].
    rewrite (round_neg q Hn). split.
    + rewrite H3, inject_Z_opp. ring.
    + apply Qabs_Qle_condition in H4. apply Qabs_Qle_condition.
      split; lra.
  - left. split; [symmetry; exact Hz|].
    rewrite (round_zero q); [reflexivity | symmetry; exact Hz].
Qed.

(** On every count of successes out of up to 160 launches the rate agrees
    with the one the standard library's IEEE 754 specification computes. *)
Lemma rate_agrees_with_ieee (s n : Z) :
  0 <= s <= n -> 1 <= n <= 160 ->
  (SF2Q (ieee_rate s n)
   == B64.mul (B64.div (inject_Z s) (inject_Z n)) 100)%Q.
Proof.
  intros Hs Hn.
  assert (A : forallb (fun p =>
                Qeq_bool (SF2Q (ieee_rate (fst p) (snd p)))
                  (B64.mul (B64.div (inject_Z (fst p)) (inject_Z (snd p))) 100))
                (rate_grid 160) = true) by (vm_compute; reflexivity).
  rewrite forallb_forall in A.
  apply Qeq_bool_iff. apply (A (s, n)).
  unfold rate_grid. apply in_flat_map.
  exists (Z.to_nat (n - 1)). split; [apply in_seq; lia|].
  apply in_map_iff. exists (Z.to_nat s).
  split; [|apply in_seq; lia].
  f_equal; lia.
Qed.

(** ** Title (steps 3 and 4) *)

Lemma column_max_upper (l : list Q) (m : Q) :
  Pandas.column_max l = Some m -> forall x, In x l -> (x <= m)%Q.
Proof.
  revert m. induction l as [|y l IH]; cbn; [discriminate|].
  intros m Hm x [<-|Hx].
  - destruct (Pandas.column_max l) as [m'|].
    + injection Hm as <-.
      destruct (Qle_bool m' y) eqn:E; [apply Qle_refl|].
      apply Qlt_le_weak, Qnot_le_lt. intro H.
      apply Qle_bool_iff in H. congruence.
    + injection Hm as <-. apply Qle_refl.
  - destruct (Pandas.column_max l) as [m'|] eqn:El.
    + injection Hm as <-. specialize (IH m' eq_refl x Hx).
      destruct (Qle_bool m' y) eqn:E; [|exact IH].
      apply Qle_bool_iff in E. eapply Qle_trans; eassumption.
    + destruct l; [contradiction|]. cbn in El.
      destruct (Pandas.column_max l); discriminate.
Qed.

Lemma column_max_In (l : list Q) (m : Q) :
  Pandas.column_max l = Some m -> In m l.
Proof.
  revert m. induction l as [|y l IH]; cbn; [discriminate|].
  intros m Hm. destruct (Pandas.column_max l) as [m'|].
  - injection Hm as <-. destruct (Qle_bool m' y); auto.
  - injection Hm as <-. auto.
Qed.

Lemma selection_above_all (s : string) (low high : Q) (df : DataFrame) :
  (forall r, In r df -> (payload_mass r < low)%Q) ->
  selection s low high df = [].
Proof.
  intro H. unfold selection.
  induction df as [|r df IH]; cbn; [reflexivity|].
  assert (E : in_rangeb low high r = false).
  { unfold in_rangeb. apply andb_false_iff. left.
    apply not_true_is_false. intro Hle. apply Qle_bool_iff in Hle.
    apply (Qlt_not_le _ _ (H r (or_introl eq_refl))), Hle. }
  rewrite E. cbn. apply IH. intros r' Hr'. apply H. now right.
Qed.

Lemma class_sum_zsum (rows : DataFrame) :
  Pandas.class_sum rows = zsum (map class rows).
Proof. reflexivity. Qed.

(** The mean pandas returns is the exact mean rounded to binary64. *)
Lemma class_mean_rounds_exact_mean (rows : DataFrame) :
  binary64_rounding (exact_mean rows) (Pandas.class_mean rows).
Proof. apply round_is_binary64_rounding. Qed.

(** C2. For every site filter and payload range: when the plotted frame is
    non-empty the chart title is the base title followed by
    [" - Overall Success: "], the success rate printed with two decimals,
    and ["%"].  The rate is the mean of [class] over the frame times 100 as
    binary64 arithmetic yields it: the mean is the exact mean rounded to
    binary64, the rate is that mean times 100 rounded to binary64.  The
    printed text reads back as a number of hundredths nearest to the rate.
    When the frame is empty the title is the base title followed by
    [" - (No Data for this selection)"]; whenever [low] exceeds the
    dataset's maximum payload mass the frame is empty and the title is the
    no-data one. *)
Theorem scatter_title_rate_or_no_data :
  forall (df : DataFrame) (s : string) (low high : Q),
  exists fig kids,
    get_scatter_chart s [low; high] df = (Ok (fig, kids), df)
    /\ scatter_frame fig = selection s low high df
    /\ (scatter_frame fig <> [] ->
        exists (mean rate : Q) (hundredths : Z),
          mean = Pandas.class_mean (scatter_frame fig)
          /\ binary64_rounding (exact_mean (scatter_frame fig)) mean
          /\ rate = B64.mul mean 100
          /\ binary64_rounding (mean * 100) rate
          /\ scatter_title fig
             = base_title s ++ " - Overall Success: "
                 ++ Fmt.fixed2 rate ++ "%"
          /\ read_fixed2 (Fmt.fixed2 rate) = Some hundredths
          /\ (Qabs (inject_Z hundredths / 100 - rate) <= 1 # 200)%Q)
    /\ (scatter_frame fig = [] ->
        scatter_title fig = base_title s ++ no_data_suffix)
    /\ (forall m, max_payload df = Some m -> (m < low)%Q ->
        scatter_frame fig = []
        /\ scatter_title fig = base_title s ++ no_data_suffix).
Proof.
  intros df s low high.
  eexists _, _. split; [apply get_scatter_chart_run|].
  cbn [scatter_frame scatter_title]. split; [reflexivity|].
  assert (Hempty : selection s low high df = [] ->
            title_of s (selection s low high df) = base_title s ++ no_data_suffix).
  { intro E. unfold title_of. now rewrite E. }
  split; [|split].
  - intro Hne.
    set (rows := selection s low high df) in *.
    destruct (fixed2_reads_back_nearest
                (B64.mul (Pandas.class_mean rows) 100)) as (h & Hread & Hnear).
    exists (Pandas.class_mean rows), (B64.mul (Pandas.class_mean rows) 100), h.
    split; [reflexivity|].
    split; [apply class_mean_rounds_exact_mean|].
    split; [reflexivity|].
    split; [apply round_is_binary64_rounding|].
    split; [|split; [exact Hread | exact Hnear]].
    unfold title_of. apply length_pos_iff in Hne. now rewrite Hne.
  - exact Hempty.
  - intros m Hm Hlt.
    assert (E : selection s low high df = []).
    { apply selection_above_all. intros r Hr.
      eapply Qle_lt_trans; [|exact Hlt].
      apply (column_max_upper _ _ Hm). now apply in_map. }
    split; [exact E | now apply Hempty].
Qed.

(** ** Grouping *)

Section Groupby.

Variable col : LaunchRecord -> string.

Lemma insert_key_In (k x : string) (ks : list string) :
  In x (Pandas.insert_key k ks) <-> x = k \/ In x ks.
Proof.
  induction ks as [|k' ks IH]; cbn; [intuition|].
  destruct (String.compare k k') eqn:E; cbn.
  - apply String.compare_eq_iff in E. subst k'. intuition.
  - intuition.
  - rewrite IH. intuition.
Qed.

Lemma insert_key_sorted (k : string) (ks : list string) :
  StronglySorted String_as_OT.lt ks ->
  StronglySorted String_as_OT.lt (Pandas.insert_key k ks).
Proof.
  induction 1 as [|k' ks Hs IH Hall]; cbn.
  - repeat constructor.
  - destruct (String.compare k k') eqn:E.
    + now constructor.
    + apply String_as_OT.cmp_lt in E.
      constructor; [now constructor|].
      constructor; [exact E|].
      eapply Forall_impl; [|exact Hall].
      intros a Ha. eapply String_as_OT.lt_trans; eassumption.
    + constructor; [exact IH|].
      apply Forall_forall. intros x Hx.
      apply insert_key_In in Hx as [->|Hx].
      * apply String_as_OT.cmp_lt.
        rewrite String.compare_antisym, E. reflexivity.
      * rewrite Forall_forall in Hall. now apply Hall.
Qed.

Lemma group_keys_sorted (df : DataFrame) :
  StronglySorted String_as_OT.lt (Pandas.group_keys col df).
Proof.
  unfold Pandas.group_keys.
  induction df as [|r df IH]; cbn; [constructor|].
  now apply insert_key_sorted.
Qed.

Lemma strictly_sorted_NoDup (ks : list string) :
  StronglySorted String_as_OT.lt ks -> NoDup ks.
Proof.
  induction 1 as [|k ks Hs IH Hall]; constructor; [|exact IH].
  intro Hin. rewrite Forall_forall in Hall.
  exact (String_as_OT.lt_not_eq _ _ (Hall k Hin) eq_refl).
Qed.

Lemma group_keys_NoDup (df : DataFrame) :
  NoDup (Pandas.group_keys col df).
Proof. apply strictly_sorted_NoDup, group_keys_sorted. Qed.

Lemma group_keys_In (df : DataFrame) (k : string) :
  In k (Pandas.group_keys col df) <-> exists r, In r df /\ col r = k.
Proof.
  unfold Pandas.group_keys.
  induction df as [|r df IH]; cbn.
  - split; [contradiction | intros (r & [] & _)].
  - rewrite insert_key_In, IH. split.
    + intros [->|(r' & Hr' & E)]; eauto.
    + intros (r' & [->|Hr'] & E); eauto.
Qed.

Lemma groupby_keys (df : DataFrame) :
  map fst (Pandas.groupby col df) = Pandas.group_keys col df.
Proof.
  unfold Pandas.groupby. rewrite map_map. cbn. apply map_id.
Qed.

Lemma groupby_In (df : DataFrame) (k : string) (g : DataFrame) :
  In (k, g) (Pandas.groupby col df) ->
  g = filter (fun r => String.eqb (col r) k) df /\ g <> [].
Proof.
  unfold Pandas.groupby. rewrite in_map_iff.
  intros (k' & E & Hk'). injection E as <- <-. split; [reflexivity|].
  apply group_keys_In in Hk' as (r & Hr & Hc).
  intro Hnil.
  assert (Hin : In r (filter (fun r0 => String.eqb (col r0) k') df)).
  { apply filter_In. split; [exact Hr|]. now apply String.eqb_eq. }
  rewrite Hnil in Hin. contradiction.
Qed.

End Groupby.

(** ** Sorting by rate *)

Lemma insert_desc_perm (x : string * Q) (l : list (string * Q)) :
  Permutation (Pandas.insert_desc x l) (x :: l).
Proof.
  induction l as [|y l IH]; cbn; [reflexivity|].
  destruct (Qle_bool (snd y) (snd x)); [reflexivity|].
  rewrite IH. apply perm_swap.
Qed.

Lemma sort_values_desc_perm (l : list (string * Q)) :
  Permutation (Pandas.sort_values_desc l) l.
Proof.
  unfold Pandas.sort_values_desc.
  induction l as [|x l IH]; cbn; [reflexivity|].
  rewrite insert_desc_perm. now constructor.
Qed.

Lemma insert_desc_sorted (x : string * Q) (l : list (string * Q)) :
  StronglySorted rate_ge l -> StronglySorted rate_ge (Pandas.insert_desc x l).
Proof.
  induction 1 as [|y l Hs IH Hall]; cbn.
  - repeat constructor.
  - destruct (Qle_bool (snd y) (snd x)) eqn:E.
    + apply Qle_bool_iff in E.
      constructor; [now constructor|].
      constructor; [exact E|].
      eapply Forall_impl; [|exact Hall].
      intros a Ha. unfold rate_ge in *. eapply Qle_trans; eassumption.
    + constructor; [exact IH|].
      assert (Hxy : rate_ge y x).
      { unfold rate_ge. apply Qlt_le_weak, Qnot_le_lt. intro H.
        apply Qle_bool_iff in H. congruence. }
      apply Forall_forall. intros a Ha.
      apply (Permutation_in _ (insert_desc_perm x l)) in Ha.
      destruct Ha as [<-|Ha]; [exact Hxy|].
      rewrite Forall_forall in Hall. now apply Hall.
Qed.

Lemma sort_values_desc_sorted (l : list (string * Q)) :
  StronglySorted rate_ge (Pandas.sort_values_desc l).
Proof.
  unfold Pandas.sort_values_desc.
  induction l as [|x l IH]; cbn; [constructor|].
  now apply insert_desc_sorted.
Qed.

(** The rates before sorting: one entry per booster category of the frame. *)
Lemma booster_rates_keys (rows : DataFrame) :
  map fst (Pandas.groupby_class_mean_pct booster_version_category rows)
  = Pandas.group_keys booster_version_category rows.
Proof.
  unfold Pandas.groupby_class_mean_pct.
  rewrite map_map. cbn. apply groupby_keys.
Qed.

Lemma booster_rate_items_perm (rows : DataFrame) :
  Permutation (booster_rate_items rows)
    (map (fun c =>
            (c, B64.mul (Pandas.class_mean (rows_of_booster c rows)) 100))
         (Pandas.group_keys booster_version_category rows)).
Proof.
  unfold booster_rate_items. rewrite sort_values_desc_perm.
  unfold Pandas.groupby_class_mean_pct, Pandas.groupby.
  rewrite map_map. reflexivity.
Qed.

(** C3. For every site filter and payload range: when the plotted frame is
    non-empty, the children of the statistics box are the heading followed
    by one paragraph per item of the booster-rate sequence; that sequence
    has exactly one pair per booster category present in the frame and is
    ordered non-increasingly by rate.  A pair's rate is the mean of [class]
    over the category's rows times 100 as binary64 arithmetic yields it: the
    mean is the exact mean of the category rounded to binary64, the rate is
    that mean times 100 rounded to binary64.  When the frame is empty the
    children are the empty list. *)
Theorem scatter_booster_rates_sorted :
  forall (df : DataFrame) (s : string) (low high : Q),
  exists fig kids,
    get_scatter_chart s [low; high] df = (Ok (fig, kids), df)
    /\ scatter_frame fig = selection s low high df
    /\ (scatter_frame fig = [] -> kids = [])
    /\ (scatter_frame fig <> [] ->
        let items := booster_rate_items (scatter_frame fig) in
        kids = stats_header :: map render_item items
        /\ items <> []
        /\ NoDup (map fst items)
        /\ (forall c, In c (map fst items)
                      <-> exists r, In r (scatter_frame fig)
                                    /\ booster_version_category r = c)
        /\ (forall c v, In (c, v) items ->
              exists mean,
                mean = Pandas.class_mean
                         (rows_of_booster c (scatter_frame fig))
                /\ binary64_rounding
                     (exact_mean (rows_of_booster c (scatter_frame fig))) mean
                /\ v = B64.mul mean 100
                /\ binary64_rounding (mean * 100) v)
        /\ StronglySorted rate_ge items).
Proof.
  intros df s low high.
  eexists _, _. split; [apply get_scatter_chart_run|].
  cbn [scatter_frame]. split; [reflexivity|].
  set (rows := selection s low high df).
  split.
  - intro E. unfold children_of. now rewrite E.
  - intro Hne. cbn zeta.
    pose proof (booster_rate_items_perm rows) as Hperm.
    assert (Hkeys : Permutation (map fst (booster_rate_items rows))
                      (Pandas.group_keys booster_version_category rows)).
    { rewrite Hperm, map_map. cbn. now rewrite map_id. }
    split; [|split; [|split; [|split; [|split]]]].
    + unfold children_of. apply length_pos_iff in Hne. now rewrite Hne.
    + intro E. rewrite E in Hkeys. cbn in Hkeys.
      apply Permutation_nil in Hkeys.
      destruct rows as [|r rows']; [now apply Hne|].
      assert (Hin : In (booster_version_category r)
                       (Pandas.group_keys booster_version_category (r :: rows'))).
      { apply group_keys_In. exists r. split; [now left | reflexivity]. }
      rewrite Hkeys in Hin. contradiction.
    + eapply Permutation_NoDup; [symmetry; exact Hkeys|].
      apply group_keys_NoDup.
    + intro c. rewrite <- group_keys_In. split; intro H.
      * eapply Permutation_in; [exact Hkeys | exact H].
      * eapply Permutation_in; [symmetry; exact Hkeys | exact H].
    + intros c v Hin.
      apply (Permutation_in _ Hperm) in Hin.
      apply in_map_iff in Hin as (c' & E & _). injection E as -> <-.
      eexists. split; [reflexivity|].
      split; [apply class_mean_rounds_exact_mean|].
      split; [reflexivity | apply round_is_binary64_rounding].
    + apply sort_values_desc_sorted.
Qed.

(** ** Pie sectors *)

Lemma label_eqb_eq (a b : label) : label_eqb a b = true <-> a = b.
Proof.
  destruct a, b; cbn; rewrite ?String.eqb_eq, ?Z.eqb_eq;
    split; intro H; try discriminate; congruence.
Qed.

Lemma label_eqb_refl (a : label) : label_eqb a a = true.
Proof. now apply label_eqb_eq. Qed.

Lemma label_eqb_neq (a b : label) : label_eqb a b = false <-> a <> b.
Proof.
  rewrite <- label_eqb_eq. destruct (label_eqb a b); split; congruence.
Qed.

Lemma add_sector_keys (l x : label) (v : Z) (acc : list (label * Z)) :
  In x (map fst (Plotly.add_sector l v acc)) <-> x = l \/ In x (map fst acc).
Proof.
  induction acc as [|[l' v'] acc IH]; cbn; [intuition|].
  destruct (label_eqb l l') eqn:E; cbn.
  - apply label_eqb_eq in E. subst l'. intuition.
  - rewrite IH. intuition.
Qed.

Lemma add_sector_NoDup (l : label) (v : Z) (acc : list (label * Z)) :
  NoDup (map fst acc) -> NoDup (map fst (Plotly.add_sector l v acc)).
Proof.
  induction acc as [|[l' v'] acc IH]; cbn; intro H.
  - repeat constructor. intros [].
  - inversion H as [|? ? Hnin Hnd]; subst.
    destruct (label_eqb l l') eqn:E; cbn; [now constructor|].
    constructor; [|now apply IH].
    rewrite add_sector_keys. intros [->|Hin]; [|contradiction].
    rewrite label_eqb_refl in E. discriminate.
Qed.

Lemma add_sector_fresh (l : label) (v : Z) (acc : list (label * Z)) :
  ~ In l (map fst acc) -> Plotly.add_sector l v acc = (acc ++ [(l, v)])%list.
Proof.
  induction acc as [|[l' v'] acc IH]; cbn; intro H; [reflexivity|].
  destruct (label_eqb l l') eqn:E.
  - apply label_eqb_eq in E. subst l'. exfalso. apply H. now left.
  - rewrite IH; [reflexivity|]. intro Hin. apply H. now right.
Qed.

Lemma add_sector_total (l : label) (v : Z) (acc : list (label * Z)) :
  total (Plotly.add_sector l v acc) = total acc + v.
Proof.
  unfold total.
  induction acc as [|[l' v'] acc IH]; cbn; [lia|].
  destruct (label_eqb l l'); cbn; lia.
Qed.

Lemma add_sector_weight (x l : label) (v : Z) (acc : list (label * Z)) :
  weight_of x (Plotly.add_sector l v acc)
  = weight_of x acc + (if label_eqb x l then v else 0).
Proof.
  unfold weight_of, total.
  induction acc as [|[l' v'] acc IH]; cbn.
  - destruct (label_eqb x l); cbn; lia.
  - destruct (label_eqb l l') eqn:E; cbn.
    + apply label_eqb_eq in E. subst l'.
      destruct (label_eqb x l); cbn; lia.
    + destruct (label_eqb x l'); cbn; rewrite IH; lia.
Qed.

Section Sectors.

Import Plotly.

Lemma step_cons (l : label) (v : Z) (ws acc : list (label * Z)) :
  fold_left step ((l, v) :: ws) acc = fold_left step ws (add_sector l v acc).
Proof. reflexivity. Qed.

Lemma total_cons (l : label) (v : Z) (ws : list (label * Z)) :
  total ((l, v) :: ws) = v + total ws.
Proof. reflexivity. Qed.

Lemma weight_of_cons (x l : label) (v : Z) (ws : list (label * Z)) :
  weight_of x ((l, v) :: ws)
  = (if label_eqb x l then v else 0) + weight_of x ws.
Proof.
  unfold weight_of. cbn [filter fst].
  destruct (label_eqb x l); [apply total_cons | reflexivity].
Qed.

Lemma fold_sectors_keys (ws acc : list (label * Z)) (x : label) :
  In x (map fst (fold_left step ws acc))
  <-> In x (map fst acc) \/ In x (map fst ws).
Proof.
  revert acc. induction ws as [|[l v] ws IH]; intro acc.
  - cbn. tauto.
  - rewrite step_cons, IH, add_sector_keys. cbn. intuition.
Qed.

Lemma fold_sectors_NoDup (ws acc : list (label * Z)) :
  NoDup (map fst acc) -> NoDup (map fst (fold_left step ws acc)).
Proof.
  revert acc. induction ws as [|[l v] ws IH]; intros acc H; [exact H|].
  rewrite step_cons. apply IH. now apply add_sector_NoDup.
Qed.

Lemma fold_sectors_total (ws acc : list (label * Z)) :
  total (fold_left step ws acc) = total acc + total ws.
Proof.
  revert acc. induction ws as [|[l v] ws IH]; intro acc.
  - cbn [fold_left]. change (total []) with 0. lia.
  - rewrite step_cons, IH, add_sector_total, total_cons. lia.
Qed.

Lemma fold_sectors_weight (ws acc : list (label * Z)) (x : label) :
  weight_of x (fold_left step ws acc) = weight_of x acc + weight_of x ws.
Proof.
  revert acc. induction ws as [|[l v] ws IH]; intro acc.
  - cbn [fold_left]. change (weight_of x []) with 0. lia.
  - rewrite step_cons, IH, add_sector_weight, weight_of_cons. lia.
Qed.

Lemma fold_sectors_fresh (ws acc : list (label * Z)) :
  NoDup (map fst (acc ++ ws)%list) ->
  fold_left step ws acc = (acc ++ ws)%list.
Proof.
  revert acc. induction ws as [|[l v] ws IH]; intros acc H.
  - cbn. now rewrite app_nil_r.
  - rewrite step_cons, add_sector_fresh.
    + rewrite IH; rewrite <- app_assoc; [reflexivity | exact H].
    + rewrite map_app in H. cbn in H.
      intro Hin. apply NoDup_remove_2 in H. apply H.
      apply in_or_app. now left.
Qed.

Lemma NoDup_keys_weight (acc : list (label * Z)) (l : label) (v : Z) :
  NoDup (map fst acc) -> In (l, v) acc -> weight_of l acc = v.
Proof.
  induction acc as [|[l' v'] acc IH]; intros Hnd Hin; [contradiction|].
  cbn in Hnd. inversion Hnd as [|? ? Hnin Hnd']; subst.
  rewrite weight_of_cons.
  destruct Hin as [E|Hin].
  - injection E as -> ->. rewrite label_eqb_refl.
    assert (E : filter (fun lv => label_eqb l (fst lv)) acc = []).
    { apply filter_none. intros [l2 v2] H2. cbn.
      apply label_eqb_neq. intros ->.
      apply Hnin. now apply (in_map fst) in H2. }
    unfold weight_of. rewrite E. cbn. lia.
  - destruct (label_eqb l l') eqn:E.
    + apply label_eqb_eq in E. subst l'.
      exfalso. apply Hnin. now apply (in_map fst) in Hin.
    + now rewrite IH.
Qed.

End Sectors.

Lemma sectors_NoDup (fig : PieFigure) : NoDup (map fst (Plotly.sectors fig)).
Proof. apply fold_sectors_NoDup. constructor. Qed.

Lemma sectors_keys (fig : PieFigure) (x : label) :
  In x (map fst (Plotly.sectors fig))
  <-> In x (map fst (Plotly.weighted fig)).
Proof.
  unfold Plotly.sectors. rewrite fold_sectors_keys. cbn. tauto.
Qed.

Lemma sectors_value (fig : PieFigure) (l : label) (v : Z) :
  In (l, v) (Plotly.sectors fig) -> v = weight_of l (Plotly.weighted fig).
Proof.
  intro Hin.
  rewrite <- (NoDup_keys_weight _ _ _ (sectors_NoDup fig) Hin).
  unfold Plotly.sectors. now rewrite fold_sectors_weight.
Qed.

Lemma sectors_total (fig : PieFigure) :
  total (Plotly.sectors fig) = total (Plotly.weighted fig).
Proof.
  unfold Plotly.sectors. now rewrite fold_sectors_total.
Qed.

Lemma sectors_distinct_labels (fig : PieFigure) :
  NoDup (map fst (Plotly.weighted fig)) ->
  Plotly.sectors fig = Plotly.weighted fig.
Proof.
  intro H. unfold Plotly.sectors. now rewrite fold_sectors_fresh.
Qed.

(** ** [get_pie_chart] *)

Lemma get_pie_chart_all (df : DataFrame) :
  get_pie_chart "ALL" df
  = (Ok (px_pie
           (map (fun row => LStr (fst row))
                (Pandas.groupby_class_sum launch_site df))
           (Some (map snd (Pandas.groupby_class_sum launch_site df)))
           "Total Successful Launches by Site"), df).
Proof. reflexivity. Qed.

Lemma get_pie_chart_site (s : string) (df : DataFrame) :
  s <> "ALL" ->
  get_pie_chart s df
  = (Ok (px_pie (map (fun r => LInt (class r)) (rows_of_site s df)) None
                ("Launch Outcomes (Success/Failure) for " ++ s)), df).
Proof.
  intro Hs. apply String.eqb_neq in Hs.
  run_callback. now rewrite Hs.
Qed.

Lemma combine_map {A B C} (f : A -> B) (g : A -> C) (l : list A) :
  combine (map f l) (map g l) = map (fun x => (f x, g x)) l.
Proof. induction l as [|x l IH]; cbn; [reflexivity | now rewrite IH]. Qed.

Lemma site_sums (df : DataFrame) :
  Pandas.groupby_class_sum launch_site df
  = map (fun s => (s, Pandas.class_sum (rows_of_site s df)))
        (Pandas.group_keys launch_site df).
Proof.
  unfold Pandas.groupby_class_sum, Pandas.groupby.
  now rewrite map_map.
Qed.

Lemma LStr_NoDup (ks : list string) : NoDup ks -> NoDup (map LStr ks).
Proof.
  induction 1 as [|k ks Hnin Hnd IH]; cbn; constructor; [|exact IH].
  rewrite in_map_iff. intros (k' & E & Hin). injection E as ->. contradiction.
Qed.

(** With ["ALL"] the pie has one sector per site, in ascending site order. *)
Lemma pie_all_sectors (df : DataFrame) (fig : PieFigure) :
  get_pie_chart "ALL" df = (Ok fig, df) ->
  Plotly.sectors fig
  = map (fun s => (LStr s, Pandas.class_sum (rows_of_site s df)))
        (Pandas.group_keys launch_site df).
Proof.
  rewrite get_pie_chart_all. intro E. injection E as <-.
  assert (W : forall t,
    Plotly.weighted
      (px_pie (map (fun row => LStr (fst row))
                   (Pandas.groupby_class_sum launch_site df))
              (Some (map snd (Pandas.groupby_class_sum launch_site df))) t)
    = map (fun s => (LStr s, Pandas.class_sum (rows_of_site s df)))
          (Pandas.group_keys launch_site df)).
  { intro t. unfold Plotly.weighted. cbn [pie_values pie_labels].
    now rewrite combine_map, site_sums, map_map. }
  rewrite sectors_distinct_labels; rewrite W; [reflexivity|].
  rewrite map_map. cbn [fst].
  apply LStr_NoDup, group_keys_NoDup.
Qed.

Lemma class_sum_counts_successes (rows : DataFrame) :
  (forall r, In r rows -> class r = 0 \/ class r = 1) ->
  Pandas.class_sum rows = Z.of_nat (List.length (rows_of_class 1 rows)).
Proof.
  unfold Pandas.class_sum, rows_of_class.
  induction rows as [|r rows IH]; intro H; [reflexivity|].
  cbn [map fold_right filter].
  rewrite IH by (intros r' Hr'; apply H; now right).
  destruct (H r (or_introl eq_refl)) as [E|E]; rewrite E;
    [change (0 =? 1) with false | change (1 =? 1) with true];
    cbn [List.length]; lia.
Qed.

(** C4. With the sentinel ["ALL"], [get_pie_chart] returns normally a figure
    titled ["Total Successful Launches by Site"] that carries exactly one
    label per distinct site of the dataset and, aligned with the labels, one
    value per site: the sum of [class] over that site's records.  These
    label and value pairs are the sectors the pie draws.  When every [class]
    is 0 or 1 a site's value is the number of its successful launches. *)
Theorem pie_all_sums_successes_by_site :
  forall (df : DataFrame),
  exists fig sites,
    get_pie_chart "ALL" df = (Ok fig, df)
    /\ pie_title fig = "Total Successful Launches by Site"
    /\ NoDup sites
    /\ (forall s, In s sites <-> exists r, In r df /\ launch_site r = s)
    /\ pie_labels fig = map LStr sites
    /\ pie_values fig
       = Some (map (fun s => zsum (map class (rows_of_site s df))) sites)
    /\ Plotly.sectors fig
       = map (fun s => (LStr s, zsum (map class (rows_of_site s df)))) sites
    /\ (binary_outcomes df ->
        forall s, In s sites ->
          zsum (map class (rows_of_site s df))
          = Z.of_nat (List.length (rows_of_class 1 (rows_of_site s df)))).
Proof.
  intro df. exists (px_pie
           (map (fun row => LStr (fst row))
                (Pandas.groupby_class_sum launch_site df))
           (Some (map snd (Pandas.groupby_class_sum launch_site df)))
           "Total Successful Launches by Site"),
    (Pandas.group_keys launch_site df).
  split; [apply get_pie_chart_all|].
  split; [reflexivity|].
  split; [apply group_keys_NoDup|].
  split; [apply group_keys_In|].
  cbn [pie_labels pie_values].
  split; [now rewrite site_sums, map_map|].
  split; [now rewrite site_sums, map_map|].
  split; [exact (pie_all_sectors df _ (get_pie_chart_all df))|].
  intros H01 s _. rewrite <- class_sum_zsum.
  apply class_sum_counts_successes.
  intros r Hr. apply H01. unfold rows_of_site in Hr.
  now apply filter_In in Hr.
Qed.

Lemma count_weight (c : Z) (rows : DataFrame) :
  weight_of (LInt c)
    (map (fun l => (l, 1)) (map (fun r => LInt (class r)) rows))
  = Z.of_nat (List.length (rows_of_class c rows)).
Proof.
  unfold rows_of_class.
  induction rows as [|r rows IH]; [reflexivity|].
  cbn [map filter]. rewrite weight_of_cons, IH. cbn [label_eqb].
  rewrite (Z.eqb_sym c). destruct (Z.eqb (class r) c); cbn [List.length]; lia.
Qed.

Lemma count_total (ls : list label) :
  total (map (fun l => (l, 1)) ls) = Z.of_nat (List.length ls).
Proof.
  induction ls as [|l ls IH]; [reflexivity|].
  cbn [map]. rewrite total_cons, IH. cbn [List.length]. lia.
Qed.

(** C5. For every [s] other than ["ALL"] that is the site of some record,
    [get_pie_chart] returns normally a figure whose sectors are exactly one
    per distinct [class] value among the records of site [s], each valued
    with the number of those records having that class; hence the sector
    values add up to the number of records of site [s]. *)
Theorem pie_site_counts_outcomes :
  forall (df : DataFrame) (s : string),
  s <> "ALL" ->
  (exists r, In r df /\ launch_site r = s) ->
  exists fig,
    get_pie_chart s df = (Ok fig, df)
    /\ pie_title fig = "Launch Outcomes (Success/Failure) for " ++ s
    /\ Plotly.sectors fig <> []
    /\ NoDup (map fst (Plotly.sectors fig))
    /\ (forall l, In l (map fst (Plotly.sectors fig))
                  <-> exists r, In r df /\ launch_site r = s
                                /\ l = LInt (class r))
    /\ (forall l v, In (l, v) (Plotly.sectors fig) ->
          exists c, l = LInt c
                    /\ v = Z.of_nat
                             (List.length (rows_of_class c (rows_of_site s df))))
    /\ total (Plotly.sectors fig)
       = Z.of_nat (List.length (rows_of_site s df)).
Proof.
  intros df s Hs (r0 & Hr0 & Hsite0).
  eexists. split; [now apply get_pie_chart_site|].
  split; [reflexivity|].
  set (fig := px_pie _ _ _).
  assert (Hkeys : forall l, In l (map fst (Plotly.sectors fig))
            <-> exists r, In r df /\ launch_site r = s /\ l = LInt (class r)).
  { intro l. rewrite sectors_keys. unfold Plotly.weighted, fig.
    cbn [pie_values pie_labels]. rewrite !map_map. cbn [fst].
    rewrite in_map_iff. unfold rows_of_site. split.
    - intros (r & <- & Hr). apply filter_In in Hr as [Hr E].
      apply String.eqb_eq in E. now exists r.
    - intros (r & Hr & E & ->). exists r. split; [reflexivity|].
      apply filter_In. split; [exact Hr | now apply String.eqb_eq]. }
  split; [|split; [apply sectors_NoDup|split; [exact Hkeys|split]]].
  - intro E.
    assert (Hin : In (LInt (class r0)) (map fst (Plotly.sectors fig))).
    { apply Hkeys. now exists r0. }
    rewrite E in Hin. contradiction.
  - intros l v Hin.
    assert (Hl : In l (map fst (Plotly.sectors fig))).
    { now apply (in_map fst) in Hin. }
    apply Hkeys in Hl as (r & _ & _ & ->).
    exists (class r). split; [reflexivity|].
    rewrite (sectors_value _ _ _ Hin). apply count_weight.
  - rewrite sectors_total. unfold Plotly.weighted, fig.
    cbn [pie_values pie_labels]. now rewrite count_total, length_map.
Qed.

Lemma pie_site_counts_outcomes_example :
  "SiteA" <> "ALL"
  /\ (exists r, In r example_df /\ launch_site r = "SiteA")
  /\ exists fig,
       get_pie_chart "SiteA" example_df = (Ok fig, example_df)
       /\ total (Plotly.sectors fig) = 2.
Proof.
  assert (H1 : "SiteA" <> "ALL") by discriminate.
  assert (H2 : exists r, In r example_df /\ launch_site r = "SiteA").
  { exists (mkRecord "SiteA" (500 # 1) "BoosterX" 1).
    split; [left; reflexivity | reflexivity]. }
  split; [exact H1|]. split; [exact H2|].
  destruct (pie_site_counts_outcomes example_df "SiteA" H1 H2)
    as (fig & Hrun & _ & _ & _ & _ & _ & Htotal).
  exists fig. split; [exact Hrun|].
  rewrite Htotal. reflexivity.
Defined.

(** C6. For every [s] that is neither ["ALL"] nor the site of any record,
    [get_pie_chart] returns normally (no exception): the figure carries no
    label and draws no sector. *)
Theorem pie_unknown_site_is_empty :
  forall (df : DataFrame) (s : string),
  s <> "ALL" ->
  (forall r, In r df -> launch_site r <> s) ->
  exists fig,
    App.eval (get_pie_chart s) df = Ok fig
    /\ pie_labels fig = []
    /\ Plotly.sectors fig = []
    /\ pie_title fig = "Launch Outcomes (Success/Failure) for " ++ s.
Proof.
  intros df s Hs Hnone.
  eexists. unfold App.eval. rewrite (get_pie_chart_site s df Hs). cbn [fst].
  split; [reflexivity|].
  assert (E : rows_of_site s df = []).
  { apply filter_none. intros r Hr. apply String.eqb_neq. now apply Hnone. }
  rewrite E. repeat split.
Qed.

Lemma pie_unknown_site_is_empty_example :
  "SiteC" <> "ALL"
  /\ (forall r, In r example_df -> launch_site r <> "SiteC")
  /\ exists fig,
       App.eval (get_pie_chart "SiteC") example_df = Ok fig
       /\ pie_labels fig = []
       /\ Plotly.sectors fig = []
       /\ pie_title fig = "Launch Outcomes (Success/Failure) for SiteC".
Proof.
  assert (H1 : "SiteC" <> "ALL") by discriminate.
  assert (H2 : forall r, In r example_df -> launch_site r <> "SiteC").
  { intros r [<-|[<-|[<-|[]]]]; discriminate. }
  split; [exact H1|]. split; [exact H2|].
  exact (pie_unknown_site_is_empty example_df "SiteC" H1 H2).
Defined.

(** The binary64 rate of 23 successes in 160 launches is
    14.374999999999998, which prints as 14.37 in the title and in the
    statistics box (the exact rate 14.375 would not). *)
Lemma rate_below_a_tie_prints_14_37 :
  exists fig,
    App.eval (get_scatter_chart "ALL" [0%Q; 10 # 1]) tie_df
    = Ok (fig, [stats_header; P "B: 14.37%"])
    /\ scatter_title fig
       = "Payload vs. Success Correlation (All Sites) - Overall Success: 14.37%"
    /\ B64.mul (Pandas.class_mean tie_df) 100
       = 8092405580431359 # 562949953421312.
Proof.
  eexists. split; [vm_compute; reflexivity|].
  split; vm_compute; reflexivity.
Qed.

(** ** The full range, and reversed ranges *)

Lemma filter_all {A} (p : A -> bool) (l : list A) :
  (forall x, In x l -> p x = true) -> filter p l = l.
Proof.
  induction l as [|x l IH]; cbn; intro H; [reflexivity|].
  rewrite (H x (or_introl eq_refl)). f_equal. apply IH.
  intros y Hy. apply H. now right.
Qed.

(** C7. If every record has a non-negative payload mass and [m] is the
    maximum payload mass of the dataset, then [get_scatter_chart] called
    with ["ALL"] and the range [(0, m)] plots the whole dataset: its frame
    has as many rows as the dataset. *)
Theorem scatter_full_range_keeps_every_row :
  forall (df : DataFrame) (m : Q),
  (forall r, In r df -> (0 <= payload_mass r)%Q) ->
  max_payload df = Some m ->
  exists fig kids,
    get_scatter_chart "ALL" [0%Q; m] df = (Ok (fig, kids), df)
    /\ scatter_frame fig = df
    /\ List.length (scatter_frame fig) = List.length df.
Proof.
  intros df m Hpos Hmax.
  eexists _, _. split; [apply get_scatter_chart_run|]. cbn [scatter_frame].
  assert (E : selection "ALL" 0%Q m df = df).
  { apply filter_all. intros r Hr.
    apply andb_true_iff. split; [|reflexivity].
    apply in_rangeb_spec. split; [now apply Hpos|].
    apply (column_max_upper _ _ Hmax). now apply in_map. }
  now rewrite E.
Qed.

Lemma scatter_full_range_keeps_every_row_example :
  (forall r, In r example_df -> (0 <= payload_mass r)%Q)
  /\ max_payload example_df = Some (2000 # 1)
  /\ exists fig kids,
       get_scatter_chart "ALL" [0%Q; 2000 # 1] example_df
       = (Ok (fig, kids), example_df)
       /\ scatter_frame fig = example_df
       /\ List.length (scatter_frame fig) = 3%nat.
Proof.
  assert (H1 : forall r, In r example_df -> (0 <= payload_mass r)%Q).
  { intros r [<-|[<-|[<-|[]]]]; apply Qle_bool_iff; reflexivity. }
  assert (H2 : max_payload example_df = Some (2000 # 1)) by reflexivity.
  split; [exact H1|]. split; [exact H2|].
  exact (scatter_full_range_keeps_every_row example_df (2000 # 1) H1 H2).
Defined.

Lemma selection_reversed (s : string) (low high : Q) (df : DataFrame) :
  (high < low)%Q -> selection s low high df = [].
Proof.
  intro Hlt. apply filter_none. intros r _.
  apply andb_false_iff. left. apply not_true_is_false. intro H.
  apply in_rangeb_spec in H as [H1 H2].
  apply (Qlt_not_le _ _ Hlt). eapply Qle_trans; eassumption.
Qed.

(** C10. For every site filter and every pair with [low > high],
    [get_scatter_chart] returns normally (no exception): the plotted frame
    is empty, the title is the base title followed by
    [" - (No Data for this selection)"], and the statistics box has no
    children. *)
Theorem scatter_reversed_range_is_empty :
  forall (df : DataFrame) (s : string) (low high : Q),
  (high < low)%Q ->
  exists fig kids,
    App.eval (get_scatter_chart s [low; high]) df = Ok (fig, kids)
    /\ scatter_frame fig = []
    /\ scatter_title fig = base_title s ++ " - (No Data for this selection)"
    /\ kids = [].
Proof.
  intros df s low high Hlt.
  eexists _, _. unfold App.eval. rewrite get_scatter_chart_run. cbn [fst].
  split; [reflexivity|]. cbn [scatter_frame scatter_title].
  rewrite (selection_reversed s low high df Hlt).
  repeat split.
Qed.

Lemma scatter_reversed_range_is_empty_example :
  (5 # 1 < 10 # 1)%Q
  /\ exists fig kids,
       App.eval (get_scatter_chart "SiteA" [10 # 1; 5 # 1]) example_df
       = Ok (fig, kids)
       /\ scatter_frame fig = []
       /\ scatter_title fig
          = "Payload vs. Success Correlation for SiteA - (No Data for this selection)"
       /\ kids = [].
Proof.
  assert (H : (5 # 1 < 10 # 1)%Q) by reflexivity.
  split; [exact H|].
  exact (scatter_reversed_range_is_empty example_df "SiteA" (10 # 1) (5 # 1) H).
Defined.

(** ** The worked example *)

(** C8. On the three-record example dataset, [get_pie_chart "ALL"] returns
    the labels [SiteA; SiteB] with the values [1; 1], drawn as the sectors
    [(SiteA, 1); (SiteB, 1)], and [get_scatter_chart "ALL"] on the range
    [(0, 10000)] prints an overall success rate of [66.67] in its title and
    yields the booster rates [(BoosterX, 100); (BoosterY, 0)] in that
    order. *)
Theorem example_dataset_results :
  exists pie fig kids,
    App.eval (get_pie_chart "ALL") example_df = Ok pie
    /\ pie_labels pie = [LStr "SiteA"; LStr "SiteB"]
    /\ pie_values pie = Some [1; 1]
    /\ Plotly.sectors pie = [(LStr "SiteA", 1); (LStr "SiteB", 1)]
    /\ App.eval (get_scatter_chart "ALL" [0%Q; 10000 # 1]) example_df
       = Ok (fig, kids)
    /\ scatter_frame fig = example_df
    /\ Fmt.fixed2 (B64.mul (Pandas.class_mean (scatter_frame fig)) 100)
       = "66.67"
    /\ scatter_title fig
       = "Payload vs. Success Correlation (All Sites) - Overall Success: 66.67%"
    /\ booster_rate_items (scatter_frame fig)
       = [("BoosterX", 100 # 1); ("BoosterY", 0 # 1)]
    /\ kids = [stats_header; P "BoosterX: 100.00%"; P "BoosterY: 0.00%"].
Proof.
  eexists _, _, _.
  split; [reflexivity|]. split; [reflexivity|].
  split; [reflexivity|]. split; [reflexivity|].
  split; [reflexivity|]. split; [reflexivity|].
  split; [vm_compute; reflexivity|]. split; [vm_compute; reflexivity|].
  split; vm_compute; reflexivity.
Qed.

(** * Further properties of the module *)

(** ** [min_payload] and [max_payload] *)

Lemma Qle_bool_false_lt (a b : Q) : Qle_bool a b = false -> (b < a)%Q.
Proof.
  intro E. apply Qnot_le_lt. intro H.
  apply Qle_bool_iff in H. congruence.
Qed.

Lemma column_min_lower (l : list Q) (m : Q) :
  Pandas.column_min l = Some m -> forall x, In x l -> (m <= x)%Q.
Proof.
  revert m. induction l as [|y l IH]; cbn; [discriminate|].
  intros m Hm x Hx.
  destruct (Pandas.column_min l) as [m'|] eqn:El.
  - injection Hm as <-.
    destruct (Qle_bool y m') eqn:E.
    + apply Qle_bool_iff in E. destruct Hx as [<-|Hx]; [apply Qle_refl|].
      eapply Qle_trans; [exact E | now apply IH].
    + apply Qle_bool_false_lt in E. destruct Hx as [<-|Hx].
      * now apply Qlt_le_weak.
      * now apply IH.
  - injection Hm as <-. destruct Hx as [<-|Hx]; [apply Qle_refl|].
    destruct l; [contradiction|]. cbn in El.
    destruct (Pandas.column_min l); discriminate.
Qed.

Lemma column_min_In (l : list Q) (m : Q) :
  Pandas.column_min l = Some m -> In m l.
Proof.
  revert m. induction l as [|y l IH]; cbn; [discriminate|].
  intros m Hm. destruct (Pandas.column_min l) as [m'|].
  - injection Hm as <-. destruct (Qle_bool y m'); auto.
  - injection Hm as <-. auto.
Qed.

Lemma column_extrema_cons (x : Q) (l : list Q) :
  exists lo hi,
    Pandas.column_min (x :: l) = Some lo
    /\ Pandas.column_max (x :: l) = Some hi.
Proof.
  cbn. destruct (Pandas.column_min l), (Pandas.column_max l); eauto.
Qed.

Lemma payload_In (df : DataFrame) (q : Q) :
  In q (map payload_mass df) -> exists r, In r df /\ payload_mass r = q.
Proof.
  rewrite in_map_iff. intros (r & E & Hr). eauto.
Qed.

(** X1. The two bounds computed at import time: on an empty dataset neither
    exists (pandas yields NaN); otherwise both exist, each is the payload
    mass of some record, [min_payload <= max_payload], and every record's
    payload mass lies between them. *)
Theorem payload_bounds_enclose_dataset :
  forall (df : DataFrame),
    (df = [] /\ min_payload df = None /\ max_payload df = None)
    \/ (exists lo hi,
          min_payload df = Some lo /\ max_payload df = Some hi
          /\ (lo <= hi)%Q
          /\ (exists r, In r df /\ payload_mass r = lo)
          /\ (exists r, In r df /\ payload_mass r = hi)
          /\ (forall r, In r df -> in_range lo hi r)).
Proof.
  intros [|r0 df]; [left; repeat split|right].
  unfold min_payload, max_payload.
  destruct (column_extrema_cons (payload_mass r0) (map payload_mass df))
    as (lo & hi & Hlo & Hhi).
  change (payload_mass r0 :: map payload_mass df)
    with (map payload_mass (r0 :: df)) in Hlo, Hhi.
  exists lo, hi. split; [exact Hlo|]. split; [exact Hhi|].
  pose proof (column_min_lower _ _ Hlo) as Hlower.
  pose proof (column_max_upper _ _ Hhi) as Hupper.
  pose proof (column_max_In _ _ Hhi) as Hin.
  split; [now apply Hlower|].
  split; [apply payload_In, (column_min_In _ _ Hlo)|].
  split; [now apply payload_In|].
  intros r Hr. split; [apply Hlower | apply Hupper]; now apply in_map.
Qed.

(** X2. The dashboard's initial state: with the dropdown's default ["ALL"]
    and the slider's default [[min_payload, max_payload]],
    [get_scatter_chart] plots every record of the dataset, in order. *)
Theorem default_controls_plot_whole_dataset :
  forall (df : DataFrame) (lo hi : Q),
  min_payload df = Some lo ->
  max_payload df = Some hi ->
  exists fig kids,
    get_scatter_chart "ALL" [lo; hi] df = (Ok (fig, kids), df)
    /\ scatter_frame fig = df.
Proof.
  intros df lo hi Hlo Hhi.
  eexists _, _. split; [apply get_scatter_chart_run|]. cbn [scatter_frame].
  apply filter_all. intros r Hr.
  apply andb_true_iff. split; [|reflexivity].
  apply in_rangeb_spec. split.
  - apply (column_min_lower _ _ Hlo). now apply in_map.
  - apply (column_max_upper _ _ Hhi). now apply in_map.
Qed.

Lemma default_controls_plot_whole_dataset_example :
  min_payload example_df = Some (500 # 1)
  /\ max_payload example_df = Some (2000 # 1)
  /\ exists fig kids,
       get_scatter_chart "ALL" [500 # 1; 2000 # 1] example_df
       = (Ok (fig, kids), example_df)
       /\ scatter_frame fig = example_df.
Proof.
  assert (H1 : min_payload example_df = Some (500 # 1)) by reflexivity.
  assert (H2 : max_payload example_df = Some (2000 # 1)) by reflexivity.
  split; [exact H1|]. split; [exact H2|].
  exact (default_controls_plot_whole_dataset example_df _ _ H1 H2).
Defined.

(** ** Unpacking the range *)

Lemma get_scatter_chart_bad_range (s : string) (payload_range : list Q)
  (df : DataFrame) :
  List.length payload_range <> 2%nat ->
  get_scatter_chart s payload_range df = (Raise ValueError, df).
Proof.
  destruct payload_range as [|low [|high [|x rest]]]; intro H;
    try reflexivity.
  now contradiction H.
Qed.

(** X3. [get_scatter_chart] returns normally exactly when [payload_range]
    has two elements; on any other length the unpacking
    [low, high = payload_range] raises [ValueError] and nothing is
    plotted. *)
Theorem scatter_raises_unless_two_bounds :
  forall (df : DataFrame) (s : string) (payload_range : list Q),
    (List.length payload_range = 2%nat
     <-> exists out, App.eval (get_scatter_chart s payload_range) df = Ok out)
    /\ (List.length payload_range <> 2%nat
        <-> App.eval (get_scatter_chart s payload_range) df = Raise ValueError).
Proof.
  intros df s payload_range. unfold App.eval.
  destruct (Nat.eq_dec (List.length payload_range) 2) as [E|E].
  - destruct payload_range as [|low [|high [|x rest]]]; try discriminate E.
    rewrite get_scatter_chart_run. cbn [fst].
    split; split; intro H; try reflexivity; try discriminate H; eauto.
    now contradiction H.
  - rewrite (get_scatter_chart_bad_range s payload_range df E). cbn [fst].
    split; split; intro H; try reflexivity; try exact E.
    + contradiction.
    + destruct H as [out H]. discriminate H.
Qed.

(** ** The dropdown's options *)

Lemma existsb_eqb_In (x : string) (seen : list string) :
  existsb (String.eqb x) seen = true <-> In x seen.
Proof.
  rewrite existsb_exists. split.
  - intros (y & Hy & E). apply String.eqb_eq in E. now subst.
  - intro H. exists x. split; [exact H | apply String.eqb_refl].
Qed.

Lemma unique_from_In (seen l : list string) (x : string) :
  In x (Pandas.unique_from seen l) <-> In x l /\ ~ In x seen.
Proof.
  revert seen. induction l as [|y l IH]; intro seen; cbn; [tauto|].
  destruct (existsb (String.eqb y) seen) eqn:E.
  - apply existsb_eqb_In in E. rewrite IH. split.
    + intros [H1 H2]. auto.
    + intros [[<-|H1] H2]; [contradiction | auto].
  - assert (Hy : ~ In y seen).
    { intro H. apply existsb_eqb_In in H. congruence. }
    cbn. rewrite IH. cbn. split.
    + intros [<-|[H1 H2]]; [auto|]. split; [auto|]. intro H. apply H2. auto.
    + intros [[<-|H1] H2]; [auto|].
      destruct (string_dec y x) as [->|Hne]; [auto|].
      right. split; [exact H1|]. intros [H|H]; [contradiction | auto].
Qed.

Lemma unique_from_NoDup (seen l : list string) :
  NoDup (Pandas.unique_from seen l).
Proof.
  revert seen. induction l as [|y l IH]; intro seen; cbn; [constructor|].
  destruct (existsb (String.eqb y) seen); [apply IH|].
  constructor; [|apply IH].
  rewrite unique_from_In. intros [_ H]. apply H. now left.
Qed.

Lemma launch_sites_In (df : DataFrame) (v : string) :
  In v (launch_sites df) <-> exists r, In r df /\ launch_site r = v.
Proof.
  unfold launch_sites, Pandas.unique.
  rewrite unique_from_In, in_map_iff. cbn. split.
  - intros [(r & E & Hr) _]. eauto.
  - intros (r & Hr & E). split; [eauto | tauto].
Qed.

Lemma launch_sites_NoDup (df : DataFrame) : NoDup (launch_sites df).
Proof. apply unique_from_NoDup. Qed.

(** X4. The dropdown offers the entry labelled ["All Sites"] with value
    ["ALL"] first, followed by exactly one entry per distinct launch site of
    the dataset, without repetition, each labelled with the site it
    selects. *)
Theorem site_options_all_then_each_site_once :
  forall (df : DataFrame),
  exists rest,
    site_options df = mkOption "All Sites" "ALL" :: rest
    /\ (forall o, In o rest -> opt_label o = opt_value o)
    /\ NoDup (map opt_value rest)
    /\ (forall v, In v (map opt_value rest)
                  <-> exists r, In r df /\ launch_site r = v).
Proof.
  intro df. eexists. split; [reflexivity|].
  assert (E : map opt_value (map (fun site => mkOption site site)
                                 (launch_sites df)) = launch_sites df).
  { rewrite map_map. cbn. apply map_id. }
  split; [|rewrite E; split].
  - intros o Ho. apply in_map_iff in Ho as (site & <- & _). reflexivity.
  - apply launch_sites_NoDup.
  - apply launch_sites_In.
Qed.

(** X5. The site entries of the dropdown and the sectors of the ["ALL"] pie
    name the same sites, each once: the sector labels are a rearrangement of
    the dropdown's sites, so the dropdown has one entry more than the pie
    has sectors. *)
Theorem dropdown_sites_match_pie_sectors :
  forall (df : DataFrame),
  exists fig,
    get_pie_chart "ALL" df = (Ok fig, df)
    /\ Permutation (map LStr (launch_sites df))
                   (map fst (Plotly.sectors fig))
    /\ List.length (site_options df)
       = S (List.length (Plotly.sectors fig)).
Proof.
  intro df. eexists. split; [apply get_pie_chart_all|].
  rewrite (pie_all_sectors df _ (get_pie_chart_all df)).
  rewrite map_map. cbn [fst].
  assert (P : Permutation (launch_sites df)
                (Pandas.group_keys launch_site df)).
  { apply NoDup_Permutation.
    - apply launch_sites_NoDup.
    - apply group_keys_NoDup.
    - intro v. now rewrite launch_sites_In, group_keys_In. }
  split.
  - now apply Permutation_map.
  - unfold site_options. cbn [List.app List.length].
    rewrite !length_map. f_equal. now apply Permutation_length.
Qed.

Lemma pie_site_labels (df : DataFrame) (s : string) (l : label) :
  In l (map fst (Plotly.sectors
                   (px_pie (map (fun r => LInt (class r)) (rows_of_site s df))
                           None
                           ("Launch Outcomes (Success/Failure) for " ++ s))))
  <-> exists r, In r df /\ launch_site r = s /\ l = LInt (class r).
Proof.
  rewrite sectors_keys. unfold Plotly.weighted.
  cbn [pie_values pie_labels]. rewrite !map_map. cbn [fst].
  rewrite in_map_iff. unfold rows_of_site. split.
  - intros (r & <- & Hr). apply filter_In in Hr as [Hr E].
    apply String.eqb_eq in E. now exists r.
  - intros (r & Hr & E & ->). exists r. split; [reflexivity|].
    apply filter_In. split; [exact Hr | now apply String.eqb_eq].
Qed.

(** X6. When every outcome is 0 or 1 and at least one launch succeeded,
    every entry the dropdown offers is served with something to draw:
    [get_pie_chart] called with the entry's value returns normally and its
    pie has a sector of positive value. *)
Theorem every_dropdown_option_draws_a_pie :
  forall (df : DataFrame) (o : DropdownOption),
  binary_outcomes df ->
  (exists r, In r df /\ class r = 1) ->
  In o (site_options df) ->
  exists fig l v,
    get_pie_chart (opt_value o) df = (Ok fig, df)
    /\ In (l, v) (Plotly.sectors fig)
    /\ 0 < v.
Proof.
  intros df o Hbin (r1 & Hr1 & Hc1) Ho.
  destruct (string_dec (opt_value o) "ALL") as [E|E].
  - rewrite E.
    exists (px_pie
              (map (fun row => LStr (fst row))
                   (Pandas.groupby_class_sum launch_site df))
              (Some (map snd (Pandas.groupby_class_sum launch_site df)))
              "Total Successful Launches by Site"),
      (LStr (launch_site r1)),
      (Pandas.class_sum (rows_of_site (launch_site r1) df)).
    split; [apply get_pie_chart_all|].
    rewrite (pie_all_sectors df _ (get_pie_chart_all df)).
    split.
    + apply in_map_iff. exists (launch_site r1). split; [reflexivity|].
      apply group_keys_In. now exists r1.
    + assert (Hsite : binary_outcomes (rows_of_site (launch_site r1) df)).
      { intros r Hr. apply Hbin. unfold rows_of_site in Hr.
        now apply filter_In in Hr. }
      rewrite (class_sum_counts_successes _ Hsite).
      assert (Hmem : In r1 (rows_of_class 1 (rows_of_site (launch_site r1) df))).
      { apply filter_In. split; [|now apply Z.eqb_eq].
        apply filter_In. split; [exact Hr1 | apply String.eqb_refl]. }
      destruct (rows_of_class 1 (rows_of_site (launch_site r1) df));
        [contradiction | cbn; lia].
  - destruct Ho as [<-|Ho]; [now contradiction E|].
    apply in_map_iff in Ho as (site & <- & Hsite). cbn [opt_value] in *.
    apply launch_sites_In in Hsite as (r & Hr & Hs).
    set (fig := px_pie (map (fun r => LInt (class r)) (rows_of_site site df))
                       None
                       ("Launch Outcomes (Success/Failure) for " ++ site)).
    assert (Hlab : In (LInt (class r)) (map fst (Plotly.sectors fig))).
    { apply pie_site_labels. now exists r. }
    apply in_map_iff in Hlab as ([l v] & El & Hlv). cbn [fst] in El. subst l.
    exists fig, (LInt (class r)), v.
    split; [now apply get_pie_chart_site|]. split; [exact Hlv|].
    rewrite (sectors_value _ _ _ Hlv).
    unfold Plotly.weighted, fig. cbn [pie_values pie_labels].
    rewrite count_weight.
    assert (Hmem : In r (rows_of_class (class r) (rows_of_site site df))).
    { apply filter_In. split; [|apply Z.eqb_refl].
      apply filter_In. split; [exact Hr | now apply String.eqb_eq]. }
    destruct (rows_of_class (class r) (rows_of_site site df));
      [contradiction | cbn; lia].
Qed.

Lemma every_dropdown_option_draws_a_pie_example :
  binary_outcomes example_df
  /\ (exists r, In r example_df /\ class r = 1)
  /\ In (mkOption "SiteB" "SiteB") (site_options example_df)
  /\ exists fig l v,
       get_pie_chart "SiteB" example_df = (Ok fig, example_df)
       /\ In (l, v) (Plotly.sectors fig)
       /\ 0 < v.
Proof.
  assert (H0 : binary_outcomes example_df).
  { intros r [<-|[<-|[<-|[]]]]; cbn; auto. }
  assert (H1 : exists r, In r example_df /\ class r = 1).
  { exists (mkRecord "SiteA" (500 # 1) "BoosterX" 1).
    split; [left; reflexivity | reflexivity]. }
  assert (H2 : In (mkOption "SiteB" "SiteB") (site_options example_df)).
  { right. right. left. reflexivity. }
  split; [exact H0|]. split; [exact H1|]. split; [exact H2|].
  exact (every_dropdown_option_draws_a_pie example_df _ H0 H1 H2).
Defined.

(** ** Groups partition a frame *)

Section Partition.

Variable col : LaunchRecord -> string.
Variable g : LaunchRecord -> Z.

Lemma indicator_sum (k0 : string) (v : Z) (ks : list string) :
  NoDup ks -> In k0 ks ->
  zsum (map (fun k => if String.eqb k0 k then v else 0) ks) = v.
Proof.
  induction 1 as [|k ks Hnin Hnd IH]; intro Hin; [contradiction|].
  cbn [map zsum fold_right]. fold (zsum (map (fun k => if String.eqb k0 k then v else 0) ks)).
  destruct Hin as [->|Hin].
  - rewrite String.eqb_refl.
    assert (E : zsum (map (fun k => if String.eqb k0 k then v else 0) ks) = 0).
    { clear IH Hnd. induction ks as [|k ks IH]; [reflexivity|].
      cbn [map zsum fold_right].
      destruct (String.eqb k0 k) eqn:E.
      - apply String.eqb_eq in E. subst k. exfalso. apply Hnin. now left.
      - unfold zsum in IH. rewrite IH; [reflexivity|].
        intro H. apply Hnin. now right. }
    lia.
  - destruct (String.eqb k0 k) eqn:E.
    + apply String.eqb_eq in E. subst k. contradiction.
    + rewrite (IH Hin). lia.
Qed.

Lemma groups_partition (ks : list string) (rows : DataFrame) :
  NoDup ks ->
  (forall r, In r rows -> In (col r) ks) ->
  zsum (map (fun k =>
              zsum (map g (filter (fun r => String.eqb (col r) k) rows))) ks)
  = zsum (map g rows).
Proof.
  intros Hnd. induction rows as [|r rows IH]; intro Hcov.
  - cbn.
    clear Hnd Hcov. induction ks as [|k ks IH]; [reflexivity|].
    cbn [map zsum fold_right]. unfold zsum in IH. now rewrite IH.
  - assert (E : forall k,
      zsum (map g (filter (fun r0 => String.eqb (col r0) k) (r :: rows)))
      = (if String.eqb (col r) k then g r else 0)
        + zsum (map g (filter (fun r0 => String.eqb (col r0) k) rows))).
    { intro k. cbn [filter].
      destruct (String.eqb (col r) k); reflexivity. }
    rewrite (map_ext _ _ E).
    assert (S : forall (a b : string -> Z) (l : list string),
              zsum (map (fun k => a k + b k) l)
              = zsum (map a l) + zsum (map b l)).
    { intros a b l. induction l as [|k l IHl]; [reflexivity|].
      cbn [map zsum fold_right]. unfold zsum in IHl. rewrite IHl. lia. }
    rewrite S, IH by (intros r' Hr'; apply Hcov; now right).
    rewrite indicator_sum; [reflexivity | exact Hnd |].
    apply Hcov. now left.
Qed.

End Partition.

Lemma plotted_selection (s : string) (low high : Q) (df : DataFrame) :
  plotted s low high df = selection s low high df.
Proof.
  unfold plotted, App.eval. now rewrite get_scatter_chart_run.
Qed.

Lemma zsum_ones {A} (l : list A) :
  zsum (map (fun _ => 1) l) = Z.of_nat (List.length l).
Proof.
  induction l as [|x l IH]; [reflexivity|].
  cbn [map zsum fold_right List.length]. unfold zsum in IH. rewrite IH. lia.
Qed.

(** X7. The sector values of the ["ALL"] pie add up to the sum of [class]
    over the whole dataset; when every outcome is 0 or 1 this is the number
    of successful launches in the dataset. *)
Theorem pie_all_values_sum_to_dataset_successes :
  forall (df : DataFrame),
  exists fig,
    get_pie_chart "ALL" df = (Ok fig, df)
    /\ total (Plotly.sectors fig) = Pandas.class_sum df
    /\ (binary_outcomes df ->
        total (Plotly.sectors fig)
        = Z.of_nat (List.length (rows_of_class 1 df))).
Proof.
  intro df. eexists. split; [apply get_pie_chart_all|].
  rewrite (pie_all_sectors df _ (get_pie_chart_all df)).
  assert (E : total (map (fun s => (LStr s, Pandas.class_sum (rows_of_site s df)))
                         (Pandas.group_keys launch_site df))
              = Pandas.class_sum df).
  { unfold total. rewrite map_map. cbn [snd].
    apply (groups_partition launch_site class).
    - apply group_keys_NoDup.
    - intros r Hr. apply group_keys_In. now exists r. }
  split; [exact E|].
  intro Hbin. rewrite E. now apply class_sum_counts_successes.
Qed.

(** X8. When no record's site is literally ["ALL"], the per-site scatter
    frames partition the all-sites frame: for any range, the row counts
    plotted for the sites the dropdown offers add up to the row count
    plotted for ["ALL"]. *)
Theorem site_frames_partition_all_sites_frame :
  forall (df : DataFrame) (low high : Q),
  (forall r, In r df -> launch_site r <> "ALL") ->
  zsum (map (fun site => Z.of_nat (List.length (plotted site low high df)))
            (launch_sites df))
  = Z.of_nat (List.length (plotted "ALL" low high df)).
Proof.
  intros df low high Hsites.
  set (ranged := filter (in_rangeb low high) df).
  assert (Eall : plotted "ALL" low high df = ranged).
  { rewrite plotted_selection. unfold selection, ranged.
    apply filter_ext. intro r. cbn. apply andb_true_r. }
  assert (Esite : forall site, In site (launch_sites df) ->
            Z.of_nat (List.length (plotted site low high df))
            = zsum (map (fun _ : LaunchRecord => 1)
                        (filter (fun r => String.eqb (launch_site r) site)
                                ranged))).
  { intros site Hin. rewrite zsum_ones. do 2 f_equal.
    rewrite plotted_selection. unfold selection, ranged.
    rewrite filter_twice. apply filter_ext. intro r.
    unfold site_selectedb.
    apply launch_sites_In in Hin as (r0 & Hr0 & <-).
    apply Hsites, String.eqb_neq in Hr0. now rewrite Hr0. }
  rewrite (map_ext_in _ _ _ Esite), Eall, <- zsum_ones.
  apply (groups_partition launch_site (fun _ => 1)).
  - apply launch_sites_NoDup.
  - intros r Hr. apply launch_sites_In. exists r.
    split; [|reflexivity]. unfold ranged in Hr. now apply filter_In in Hr.
Qed.

Lemma site_frames_partition_all_sites_frame_example :
  (forall r, In r example_df -> launch_site r <> "ALL")
  /\ zsum (map (fun site =>
                  Z.of_nat (List.length (plotted site 0%Q (10000 # 1) example_df)))
               (launch_sites example_df))
     = 3.
Proof.
  assert (H : forall r, In r example_df -> launch_site r <> "ALL").
  { intros r [<-|[<-|[<-|[]]]]; discriminate. }
  split; [exact H|].
  rewrite (site_frames_partition_all_sites_frame example_df 0%Q (10000 # 1) H).
  reflexivity.
Defined.

Lemma filter_length_le {A} (p q : A -> bool) (l : list A) :
  (forall x, p x = true -> q x = true) ->
  (List.length (filter p l) <= List.length (filter q l))%nat.
Proof.
  intro H. induction l as [|x l IH]; cbn; [lia|].
  destruct (p x) eqn:E; [rewrite (H x E); cbn; lia|].
  destruct (q x); cbn; lia.
Qed.

Lemma selection_narrower (s : string) (low high low' high' : Q)
  (r : LaunchRecord) :
  (low <= low')%Q -> (high' <= high)%Q ->
  in_rangeb low' high' r && site_selectedb s r = true ->
  in_rangeb low high r && site_selectedb s r = true.
Proof.
  intros Hlow Hhigh H. apply andb_true_iff in H as [H1 H2].
  apply andb_true_iff. split; [|exact H2].
  apply in_rangeb_spec in H1 as [Ha Hb]. apply in_rangeb_spec. split.
  - eapply Qle_trans; eassumption.
  - eapply Qle_trans; eassumption.
Qed.

(** X9. Narrowing the payload range never adds points: every record plotted
    for a range [(low', high')] inside [(low, high)] is also plotted for
    [(low, high)] with the same site filter, so the narrower frame has no
    more rows; and whatever is plotted for a site is also plotted for
    ["ALL"]. *)
Theorem narrower_range_plots_fewer_rows :
  forall (df : DataFrame) (s : string) (low high low' high' : Q),
  (low <= low')%Q ->
  (high' <= high)%Q ->
  incl (plotted s low' high' df) (plotted s low high df)
  /\ (List.length (plotted s low' high' df)
      <= List.length (plotted s low high df))%nat
  /\ incl (plotted s low high df) (plotted "ALL" low high df).
Proof.
  intros df s low high low' high' Hlow Hhigh.
  rewrite !plotted_selection. unfold selection.
  split; [|split].
  - intros r Hr. apply filter_In in Hr as [Hr Hp]. apply filter_In.
    split; [exact Hr|]. eapply selection_narrower; eassumption.
  - apply filter_length_le. intros r Hp.
    eapply selection_narrower; eassumption.
  - intros r Hr. apply filter_In in Hr as [Hr Hp]. apply filter_In.
    split; [exact Hr|]. apply andb_true_iff in Hp as [Hp _].
    now rewrite Hp.
Qed.

Lemma narrower_range_plots_fewer_rows_example :
  (0 <= 1000 # 1)%Q
  /\ (1800 # 1 <= 10000 # 1)%Q
  /\ (List.length (plotted "SiteA" (1000 # 1) (1800 # 1) example_df)
      <= List.length (plotted "SiteA" 0%Q (10000 # 1) example_df))%nat.
Proof.
  assert (H1 : (0 <= 1000 # 1)%Q) by (apply Qle_bool_iff; reflexivity).
  assert (H2 : (1800 # 1 <= 10000 # 1)%Q) by (apply Qle_bool_iff; reflexivity).
  split; [exact H1|]. split; [exact H2|].
  exact (proj1 (proj2 (narrower_range_plots_fewer_rows
                         example_df "SiteA" _ _ _ _ H1 H2))).
Defined.

(** ** Rates are percentages *)

Lemma class_sum_bounds (rows : DataFrame) :
  binary_outcomes rows ->
  0 <= Pandas.class_sum rows <= Z.of_nat (List.length rows).
Proof.
  intro H. rewrite (class_sum_counts_successes rows H).
  split; [lia|]. apply inj_le. unfold rows_of_class.
  rewrite <- (filter_all (fun _ => true) rows) at 2 by reflexivity.
  now apply filter_length_le.
Qed.

Lemma exact_mean_bounds (rows : DataFrame) :
  binary_outcomes rows -> rows <> [] ->
  (0 <= exact_mean rows /\ exact_mean rows <= 1)%Q.
Proof.
  intros Hbin Hne.
  destruct (class_sum_bounds rows Hbin) as [Hlo Hhi].
  rewrite class_sum_zsum in Hlo, Hhi.
  assert (Hn : (0 < inject_Z (Z.of_nat (List.length rows)))%Q).
  { change 0%Q with (inject_Z 0). rewrite <- Zlt_Qlt.
    destruct rows; [now contradiction Hne | cbn; lia]. }
  unfold exact_mean. split.
  - apply Qle_shift_div_l; [exact Hn|].
    rewrite Qmult_0_l. change 0%Q with (inject_Z 0).
    now rewrite <- Zle_Qle.
  - apply Qle_shift_div_r; [exact Hn|].
    rewrite Qmult_1_l. now rewrite <- Zle_Qle.
Qed.

Lemma mean_pct_bounds (rows : DataFrame) :
  binary_outcomes rows -> rows <> [] ->
  (0 <= B64.mul (Pandas.class_mean rows) 100
   /\ B64.mul (Pandas.class_mean rows) 100 <= 100)%Q.
Proof.
  intros Hbin Hne.
  destruct (exact_mean_bounds rows Hbin Hne) as [E0 E1].
  assert (M0 : (0 <= Pandas.class_mean rows)%Q).
  { apply round_nonneg. exact E0. }
  assert (M1 : (Pandas.class_mean rows <= 1)%Q).
  { change 1%Q with (B64.round 1). now apply round_mono. }
  unfold B64.mul. split.
  - apply round_nonneg. lra.
  - change 100%Q with (B64.round 100) at 2. apply round_mono; lra.
Qed.

(** X10. When every outcome of the dataset is 0 or 1, every rate
    [get_scatter_chart] shows is a percentage: the overall success rate of a
    non-empty frame and each booster category's rate lie between 0 and
    100. *)
Theorem shown_rates_are_percentages :
  forall (df : DataFrame) (s : string) (low high : Q),
  binary_outcomes df ->
  exists fig kids,
    get_scatter_chart s [low; high] df = (Ok (fig, kids), df)
    /\ (scatter_frame fig <> [] ->
        (0 <= B64.mul (Pandas.class_mean (scatter_frame fig)) 100
         /\ B64.mul (Pandas.class_mean (scatter_frame fig)) 100 <= 100)%Q)
    /\ (forall c v, In (c, v) (booster_rate_items (scatter_frame fig)) ->
        (0 <= v /\ v <= 100)%Q).
Proof.
  intros df s low high Hbin.
  eexists _, _. split; [apply get_scatter_chart_run|]. cbn [scatter_frame].
  set (rows := selection s low high df).
  assert (Hrows : binary_outcomes rows).
  { intros r Hr. apply Hbin. unfold rows, selection in Hr.
    now apply filter_In in Hr. }
  split; [now apply mean_pct_bounds|].
  intros c v Hin.
  apply (Permutation_in _ (booster_rate_items_perm rows)) in Hin.
  apply in_map_iff in Hin as (c' & E & Hkey). injection E as -> <-.
  apply group_keys_In in Hkey as (r & Hr & Hc).
  apply mean_pct_bounds.
  - intros r' Hr'. apply Hrows. unfold rows_of_booster in Hr'.
    now apply filter_In in Hr'.
  - intro Hnil.
    assert (Hin : In r (rows_of_booster c rows)).
    { apply filter_In. split; [exact Hr | now apply String.eqb_eq]. }
    rewrite Hnil in Hin. contradiction.
Qed.

Lemma example_df_binary : binary_outcomes example_df.
Proof. intros r [<-|[<-|[<-|[]]]]; cbn; auto. Qed.

Lemma shown_rates_are_percentages_example :
  binary_outcomes example_df
  /\ exists fig kids,
       get_scatter_chart "ALL" [0%Q; 10000 # 1] example_df
       = (Ok (fig, kids), example_df)
       /\ (forall c v, In (c, v) (booster_rate_items (scatter_frame fig)) ->
           (0 <= v /\ v <= 100)%Q).
Proof.
  split; [exact example_df_binary|].
  destruct (shown_rates_are_percentages example_df "ALL" 0%Q (10000 # 1)
              example_df_binary) as (fig & kids & Hrun & _ & Hitems).
  exists fig, kids. split; [exact Hrun | exact Hitems].
Defined.

(** ** Success against failure *)

(** X11. When every outcome of the dataset is 0 or 1, the pie of a single
    site has at most two sectors, labelled 0 (failure) or 1 (success), and
    each sector it draws counts at least one launch. *)
Theorem site_pie_has_at_most_two_sectors :
  forall (df : DataFrame) (s : string),
  s <> "ALL" ->
  binary_outcomes df ->
  exists fig,
    get_pie_chart s df = (Ok fig, df)
    /\ (List.length (Plotly.sectors fig) <= 2)%nat
    /\ (forall l v, In (l, v) (Plotly.sectors fig) ->
        (l = LInt 0 \/ l = LInt 1) /\ 0 < v).
Proof.
  intros df s Hs Hbin.
  eexists. split; [now apply get_pie_chart_site|].
  set (fig := px_pie _ _ _).
  assert (Hlab : forall l, In l (map fst (Plotly.sectors fig)) ->
            l = LInt 0 \/ l = LInt 1).
  { intros l Hl. apply pie_site_labels in Hl as (r & Hr & _ & ->).
    destruct (Hbin r Hr) as [-> | ->]; auto. }
  split.
  - rewrite <- (length_map fst).
    change 2%nat with (List.length [LInt 0; LInt 1]).
    apply NoDup_incl_length; [apply sectors_NoDup|].
    intros l Hl. destruct (Hlab l Hl) as [-> | ->]; cbn; auto.
  - intros l v Hin.
    assert (Hl : In l (map fst (Plotly.sectors fig))).
    { now apply (in_map fst) in Hin. }
    split; [now apply Hlab|].
    apply pie_site_labels in Hl as (r & Hr & Hsite & ->).
    rewrite (sectors_value _ _ _ Hin).
    unfold Plotly.weighted, fig. cbn [pie_values pie_labels].
    rewrite count_weight.
    assert (Hmem : In r (rows_of_class (class r) (rows_of_site s df))).
    { apply filter_In. split; [|apply Z.eqb_refl].
      apply filter_In. split; [exact Hr | now apply String.eqb_eq]. }
    destruct (rows_of_class (class r) (rows_of_site s df));
      [contradiction | cbn; lia].
Qed.

Lemma site_pie_has_at_most_two_sectors_example :
  "SiteA" <> "ALL"
  /\ binary_outcomes example_df
  /\ exists fig,
       get_pie_chart "SiteA" example_df = (Ok fig, example_df)
       /\ (List.length (Plotly.sectors fig) <= 2)%nat.
Proof.
  assert (H : "SiteA" <> "ALL") by discriminate.
  split; [exact H|]. split; [exact example_df_binary|].
  destruct (site_pie_has_at_most_two_sectors example_df "SiteA" H
              example_df_binary) as (fig & Hrun & Hlen & _).
  exists fig. split; [exact Hrun | exact Hlen].
Defined.

(** ** The two pies agree *)

(** X13. When every outcome is 0 or 1, the two branches of [get_pie_chart]
    agree on a site's successes: the value of the site's sector in the
    ["ALL"] pie is the value of the success sector (label 1) in the site's
    own pie, and the site's pie has no success sector exactly when that
    value is 0. *)
Theorem all_pie_sector_is_site_success_sector :
  forall (df : DataFrame) (s : string),
  s <> "ALL" ->
  binary_outcomes df ->
  exists all_fig site_fig,
    get_pie_chart "ALL" df = (Ok all_fig, df)
    /\ get_pie_chart s df = (Ok site_fig, df)
    /\ (forall v, In (LStr s, v) (Plotly.sectors all_fig) ->
        (0 < v -> In (LInt 1, v) (Plotly.sectors site_fig))
        /\ (v = 0 -> ~ In (LInt 1) (map fst (Plotly.sectors site_fig)))).
Proof.
  intros df s Hs Hbin.
  eexists _, _. split; [apply get_pie_chart_all|].
  split; [now apply get_pie_chart_site|].
  rewrite (pie_all_sectors df _ (get_pie_chart_all df)).
  set (site_fig := px_pie _ _ _).
  intros v Hin. apply in_map_iff in Hin as (s' & E & _).
  injection E as -> <-.
  assert (Hsite : binary_outcomes (rows_of_site s df)).
  { intros r Hr. apply Hbin. unfold rows_of_site in Hr.
    now apply filter_In in Hr. }
  rewrite (class_sum_counts_successes _ Hsite).
  set (successes := rows_of_class 1 (rows_of_site s df)).
  assert (Hkey : In (LInt 1) (map fst (Plotly.sectors site_fig))
                 <-> successes <> []).
  { unfold site_fig. rewrite pie_site_labels. split.
    - intros (r & Hr & Hrs & E) Hnil. injection E as E.
      assert (Hmem : In r successes).
      { apply filter_In. split; [|rewrite <- E; reflexivity].
        apply filter_In. split; [exact Hr | now apply String.eqb_eq]. }
      rewrite Hnil in Hmem. contradiction.
    - intro Hne. destruct successes as [|r rest] eqn:Es; [now contradiction Hne|].
      assert (Hmem : In r successes) by (rewrite Es; now left).
      apply filter_In in Hmem as [Hmem Hc].
      apply filter_In in Hmem as [Hr Hrs].
      apply Z.eqb_eq in Hc. apply String.eqb_eq in Hrs.
      exists r. now rewrite Hc. }
  split.
  - intro Hpos.
    assert (Hne : successes <> []).
    { intro Hnil. rewrite Hnil in Hpos. cbn in Hpos. lia. }
    apply Hkey, in_map_iff in Hne as ([l v'] & El & Hlv).
    cbn [fst] in El. subst l.
    rewrite (sectors_value _ _ _ Hlv) in Hlv.
    unfold Plotly.weighted, site_fig in Hlv. cbn [pie_values pie_labels] in Hlv.
    now rewrite count_weight in Hlv.
  - intros Hzero Hlab. apply Hkey in Hlab.
    destruct successes; [now apply Hlab | discriminate Hzero].
Qed.

Lemma all_pie_sector_is_site_success_sector_example :
  "SiteA" <> "ALL"
  /\ binary_outcomes example_df
  /\ exists all_fig site_fig,
       get_pie_chart "ALL" example_df = (Ok all_fig, example_df)
       /\ get_pie_chart "SiteA" example_df = (Ok site_fig, example_df)
       /\ In (LInt 1, 1) (Plotly.sectors site_fig).
Proof.
  assert (H : "SiteA" <> "ALL") by discriminate.
  split; [exact H|]. split; [exact example_df_binary|].
  destruct (all_pie_sector_is_site_success_sector example_df "SiteA" H
              example_df_binary) as (all_fig & site_fig & Hall & Hsite & Hv).
  exists all_fig, site_fig. split; [exact Hall|]. split; [exact Hsite|].
  apply (Hv 1); [|reflexivity].
  rewrite (pie_all_sectors _ _ Hall). left. reflexivity.
Defined.
